(** * The real-time notification client of static/js/main.js

    A shallow embedding of the class [RealTimeNotifications]: the fields of
    the object, the part of the browser its methods read and write (the
    WebSocket objects it constructs, the reconnect timeouts it arms, the
    badge, status and dropdown elements of the document), and its methods as
    computations over that page state.

    Modelling conventions.
    - Counts and delays are JavaScript numbers holding integers; they are
      embedded as [Z] (exact below 2^53).  The attempt counter only ever
      starts at 0, is incremented, or is reset to 0: it is a [nat].
    - Identifiers are the text that ends up in [dataset.notificationId]
      and in the attribute selector [[data-notification-id="..."]].  For
      identifier text (no double quote, backslash, line break or NUL) the
      selector matches on equality of that text; text with a double quote
      that cannot be a selector makes [querySelector] throw; what any other
      text selects is outside the model.  Properties that depend on the
      lookup are stated for identifier text.
    - JavaScript numbers are exact on the safe integers (absolute value
      below 2^53), markup is interpolated into [innerHTML], and white
      space beyond ASCII exists: properties that depend on arithmetic, on
      rendered items or on white space are stated for safe integers, for
      type words and text without markup, and for ASCII text.
    - Inbound payloads carry the fields their [type] announces, except that
      the [notification] field of a [new_notification] message may be
      missing ([None]).
    - The only elements carrying [data-notification-id] are the children of
      the dropdown menu, which is modelled as a flat list of elements.
    - Delays are in milliseconds; one time unit of the backoff series is the
      base delay of 1000 ms.

    After the client come the page scripts of the same file ([getCookie],
    the search form, the education fields, the skills input) and two
    widgets of the gamification page ([refreshStats] and the achievement
    filters), each with the part of the document it reads and writes. *)

From Stdlib Require Import ZArith Lia Bool Ascii String.
From stdpp Require Import base list strings pretty.

Open Scope Z_scope.

(** ** Data model *)

(** [WebSocket.readyState]. *)
Inductive ready_state := CONNECTING | OPEN | CLOSING | CLOSED.

#[global] Instance ready_state_eq_dec : EqDecision ready_state.
Proof. solve_decision. Defined.

(** The object passed to [JSON.stringify] by [markAsRead]. *)
Record outbound := mkOutbound {
  out_type : string;
  out_notification_id : string
}.

(** A WebSocket object: the url it was constructed with, its ready state and
    the frames handed to [send] while it was open. *)
Record WebSocket := mkWebSocket {
  url : string;
  readyState : ready_state;
  sent : list outbound
}.

(** The [notification] payload of a [new_notification] message. *)
Record notification := mkNotification {
  n_id : string;
  n_type : string;
  n_content : string;
  n_created_at : Z;
  n_related_id : option string
}.

(** An inbound message after [JSON.parse], by its [type] field. *)
Inductive message :=
| notification_count (count : Z)
| new_notification (payload : option notification)
| notification_read (notification_id : string)
| other_message (type : string).

(** Elements matched by ['.notification-badge, .notification-count']. *)
Record badge := mkBadge {
  badge_textContent : string;
  badge_display : string;
  badge_classList : list string
}.

(** Elements matched by ['.connection-status, .status-indicator']. *)
Record indicator := mkIndicator {
  ind_textContent : string;
  ind_classList : list string
}.

(** What [addToNotificationDropdown] renders into an item, and the
    notification its click listener holds. *)
Record item_body := mkItemBody {
  item_icon : string;
  item_title : string;
  item_text : string;
  item_time : string;
  item_listener : notification
}.

(** A child of ['.notification-dropdown-menu']: a notification item or any
    other element (the "No notifications yet" placeholder has no item body
    and no notification id). *)
Record element := mkElement {
  classList : list string;
  notificationId : option string;
  body : option item_body
}.

(** A reconnect timeout armed by [scheduleReconnect]; its id is its
    position in the page's timer table and its callback calls
    [connectWebSocket].  (The five-second timeouts that dismiss a toast or
    close an OS notification touch nothing the model keeps and are left
    out.) *)
Record timer := mkTimer {
  delay : Z;
  fired : bool
}.

(** Effects that leave nothing behind that the claims are about: console
    lines, toasts (container and auto-dismiss included), the sound and OS
    notifications.  [LogReconnect] is the console line "Attempting to
    reconnect in <delay>ms (attempt <attempt>)". *)
Inductive effect :=
| ConsoleLog (line : string)
| ConsoleError (line : string)
| LogReconnect (delay : Z) (attempt : nat)
| Toast (icon title text : string)
| Sound
| BrowserNotification (title body tag : string).

(** The object's fields followed by the browser state around it.  A socket
    handle is an index into [sockets], the list of every WebSocket
    constructed so far, so that [socket] aliases the object the browser
    keeps changing. *)
Record page := mkPage {
  socket : option nat;
  notificationCount : Z;
  isConnected : bool;
  reconnectAttempts : nat;
  maxReconnectAttempts : nat;
  reconnectDelay : Z;
  sockets : list WebSocket;
  timers : list timer;
  badges : list badge;
  indicators : list indicator;
  dropdown : option (list element);
  title : string;
  permission : option string;
  clock : Z;
  location_protocol : string;
  location_host : string;
  effects : list effect
}.

Definition set_socket (v : option nat) (p : page) : page :=
  let '(mkPage so nc ic ra mx rd ss ts bs ins dd ti pe cl lp lh ef) := p in
  mkPage v nc ic ra mx rd ss ts bs ins dd ti pe cl lp lh ef.

Definition set_notificationCount (v : Z) (p : page) : page :=
  let '(mkPage so nc ic ra mx rd ss ts bs ins dd ti pe cl lp lh ef) := p in
  mkPage so v ic ra mx rd ss ts bs ins dd ti pe cl lp lh ef.

Definition set_isConnected (v : bool) (p : page) : page :=
  let '(mkPage so nc ic ra mx rd ss ts bs ins dd ti pe cl lp lh ef) := p in
  mkPage so nc v ra mx rd ss ts bs ins dd ti pe cl lp lh ef.

Definition set_reconnectAttempts (v : nat) (p : page) : page :=
  let '(mkPage so nc ic ra mx rd ss ts bs ins dd ti pe cl lp lh ef) := p in
  mkPage so nc ic v mx rd ss ts bs ins dd ti pe cl lp lh ef.

Definition set_reconnectDelay (v : Z) (p : page) : page :=
  let '(mkPage so nc ic ra mx rd ss ts bs ins dd ti pe cl lp lh ef) := p in
  mkPage so nc ic ra mx v ss ts bs ins dd ti pe cl lp lh ef.

Definition set_sockets (v : list WebSocket) (p : page) : page :=
  let '(mkPage so nc ic ra mx rd ss ts bs ins dd ti pe cl lp lh ef) := p in
  mkPage so nc ic ra mx rd v ts bs ins dd ti pe cl lp lh ef.

Definition set_timers (v : list timer) (p : page) : page :=
  let '(mkPage so nc ic ra mx rd ss ts bs ins dd ti pe cl lp lh ef) := p in
  mkPage so nc ic ra mx rd ss v bs ins dd ti pe cl lp lh ef.

Definition set_badges (v : list badge) (p : page) : page :=
  let '(mkPage so nc ic ra mx rd ss ts bs ins dd ti pe cl lp lh ef) := p in
  mkPage so nc ic ra mx rd ss ts v ins dd ti pe cl lp lh ef.

Definition set_indicators (v : list indicator) (p : page) : page :=
  let '(mkPage so nc ic ra mx rd ss ts bs ins dd ti pe cl lp lh ef) := p in
  mkPage so nc ic ra mx rd ss ts bs v dd ti pe cl lp lh ef.

Definition set_dropdown (v : option (list element)) (p : page) : page :=
  let '(mkPage so nc ic ra mx rd ss ts bs ins dd ti pe cl lp lh ef) := p in
  mkPage so nc ic ra mx rd ss ts bs ins v ti pe cl lp lh ef.

Definition set_title (v : string) (p : page) : page :=
  let '(mkPage so nc ic ra mx rd ss ts bs ins dd ti pe cl lp lh ef) := p in
  mkPage so nc ic ra mx rd ss ts bs ins dd v pe cl lp lh ef.

Definition set_clock (v : Z) (p : page) : page :=
  let '(mkPage so nc ic ra mx rd ss ts bs ins dd ti pe cl lp lh ef) := p in
  mkPage so nc ic ra mx rd ss ts bs ins dd ti pe v lp lh ef.

Definition set_effects (v : list effect) (p : page) : page :=
  let '(mkPage so nc ic ra mx rd ss ts bs ins dd ti pe cl lp lh ef) := p in
  mkPage so nc ic ra mx rd ss ts bs ins dd ti pe cl lp lh v.

(** ** Computations: page state with exceptions

    A method runs on the page and either returns or throws; what it wrote
    before throwing stays written. *)

(** Exceptions.  [OutsideModel] stands for a call whose outcome depends on
    parts of the browser that are not modelled; what such a call would do
    is never part of a property below. *)
Inductive exn := TypeError | SyntaxError | InvalidStateError | OutsideModel.

Inductive completion (A : Type) :=
| Returned (a : A)
| Threw (e : exn).
Arguments Returned {A} a.
Arguments Threw {A} e.

Definition js (A : Type) : Type := page -> completion A * page.

Definition ret {A} (a : A) : js A := fun p => (Returned a, p).

Definition throw {A} (e : exn) : js A := fun p => (Threw e, p).

Definition bind {A B} (c : js A) (k : A -> js B) : js B :=
  fun p =>
    match c p with
    | (Returned a, p') => k a p'
    | (Threw e, p') => (Threw e, p')
    end.

Definition get : js page := fun p => (Returned p, p).

Definition modify (f : page -> page) : js unit := fun p => (Returned tt, f p).

(** [try { c } catch (error) { h }]. *)
Definition try_catch {A} (c : js A) (h : exn -> js A) : js A :=
  fun p =>
    match c p with
    | (Returned a, p') => (Returned a, p')
    | (Threw e, p') => h e p'
    end.

#[global] Instance js_ret : MRet js := @ret.
#[global] Instance js_bind : MBind js := fun A B k c => bind c k.

(** The page a computation leaves behind, and whether it returned. *)
Definition exec {A} (c : js A) (p : page) : page := snd (c p).

Definition returns {A} (c : js A) (p : page) : bool :=
  match fst (c p) with Returned _ => true | Threw _ => false end.

Definition emit (e : effect) : js unit :=
  modify (fun p => set_effects (effects p ++ [e]) p).

(** ** Browser primitives *)

(** [DOMTokenList.add], [remove] and [contains]. *)
Definition classList_contains (c : string) (l : list string) : bool :=
  bool_decide (c ∈ l).

Definition classList_add (c : string) (l : list string) : list string :=
  if classList_contains c l then l else l ++ [c].

Definition classList_remove (c : string) (l : list string) : list string :=
  filter (λ x, x ≠ c) l.

(** [new WebSocket(wsUrl)]: whether the constructor returns is the
    browser's choice, given as [constructs]; a constructor that returns
    puts a new object, still connecting, at the next handle. *)
Definition new_WebSocket (constructs : bool) (wsUrl : string) : js nat :=
  fun p =>
    if constructs
    then (Returned (length (sockets p)),
          set_sockets (sockets p ++ [mkWebSocket wsUrl CONNECTING []]) p)
    else (Threw SyntaxError, p).

(** [socket.send(data)]: throws while the socket is connecting, queues the
    frame while it is open, and discards it once closing or closed. *)
Definition send (h : nat) (data : outbound) : js unit :=
  fun p =>
    match sockets p !! h with
    | Some w =>
        match readyState w with
        | CONNECTING => (Threw InvalidStateError, p)
        | OPEN =>
            (Returned tt,
             set_sockets
               (<[h := mkWebSocket (url w) OPEN (sent w ++ [data])]> (sockets p)) p)
        | CLOSING | CLOSED => (Returned tt, p)
        end
    | None => (Threw TypeError, p)
    end.

(** [setTimeout(() => this.connectWebSocket(), delay)]. *)
Definition setTimeout (ms : Z) : js unit :=
  modify (fun p => set_timers (timers p ++ [mkTimer ms false]) p).

(** [this.socket && this.socket.readyState === WebSocket.OPEN]. *)
Definition socket_is_open (p : page) : bool :=
  match socket p with
  | Some h =>
      match sockets p !! h with
      | Some w => bool_decide (readyState w = OPEN)
      | None => false
      end
  | None => false
  end.

(** [title.replace(/^\(\d+\)\s/, '')] on a title of ASCII text. *)
Definition is_digit (c : ascii) : bool :=
  (48 <=? Z.of_nat (nat_of_ascii c)) && (Z.of_nat (nat_of_ascii c) <=? 57).

Definition is_space (c : ascii) : bool :=
  let n := Z.of_nat (nat_of_ascii c) in
  ((9 <=? n) && (n <=? 13)) || (n =? 32).

Fixpoint skip_digits (s : string) : string :=
  match s with
  | String c r => if is_digit c then skip_digits r else s
  | EmptyString => s
  end.

Definition strip_count_prefix (t : string) : string :=
  match t with
  | String "("%char r =>
      match r with
      | String d _ =>
          if is_digit d then
            match skip_digits r with
            | String ")"%char (String c rest) => if is_space c then rest else t
            | _ => t
            end
          else t
      | EmptyString => t
      end
  | _ => t
  end.

(** ** Methods of [RealTimeNotifications] *)

(** The fields assigned by the constructor, before it calls [init]. *)
Definition constructor_fields (p : page) : page :=
  mkPage None 0 false 0%nat 5%nat 1000 (sockets p) (timers p)
    (badges p) (indicators p) (dropdown p) (title p) (permission p) (clock p)
    (location_protocol p) (location_host p) (effects p).

Definition updateConnectionStatus (connected : bool) : js unit :=
  modify (fun p =>
    set_indicators
      (map (fun i =>
              if connected
              then mkIndicator "Connected"
                     (classList_add "text-success"
                        (classList_remove "text-danger" (ind_classList i)))
              else mkIndicator "Disconnected"
                     (classList_add "text-danger"
                        (classList_remove "text-success" (ind_classList i))))
           (indicators p)) p).

Definition scheduleReconnect : js unit :=
  p ← get;
  if (reconnectAttempts p <? maxReconnectAttempts p)%nat then
    modify (set_reconnectAttempts (S (reconnectAttempts p)));;
    p ← get;
    let delay' := reconnectDelay p * 2 ^ (Z.of_nat (reconnectAttempts p) - 1) in
    emit (LogReconnect delay' (reconnectAttempts p));;
    setTimeout delay'
  else
    emit (ConsoleLog "Max reconnection attempts reached").

Definition connectWebSocket (constructs : bool) : js unit :=
  p ← get;
  if socket_is_open p then ret tt
  else
    let protocol :=
      if bool_decide (location_protocol p = "https:") then "wss:" else "ws:" in
    let wsUrl := protocol +:+ "//" +:+ location_host p +:+ "/ws/notifications/" in
    try_catch
      (h ← new_WebSocket constructs wsUrl;
       modify (set_socket (Some h)))
      (fun _ =>
         emit (ConsoleError "Failed to create WebSocket connection:");;
         scheduleReconnect).

Definition getNotificationIcon (type : string) : string :=
  if bool_decide (type = "new_job_posting") then "fas fa-briefcase"
  else if bool_decide (type = "application_update") then "fas fa-file-alt"
  else if bool_decide (type = "interview_scheduled") then "fas fa-calendar-check"
  else if bool_decide (type = "system") then "fas fa-cog"
  else if bool_decide (type = "message") then "fas fa-envelope"
  else "fas fa-bell".

Definition getNotificationTitle (type : string) : string :=
  if bool_decide (type = "new_job_posting") then "New Job Alert"
  else if bool_decide (type = "application_update") then "Application Update"
  else if bool_decide (type = "interview_scheduled") then "Interview Scheduled"
  else if bool_decide (type = "system") then "System Notification"
  else if bool_decide (type = "message") then "New Message"
  else "Notification".

Definition getTimeAgo (now date : Z) : string :=
  let diff := now - date in
  let minutes := diff / 60000 in
  if minutes <? 1 then "Just now"
  else if minutes <? 60 then pretty minutes +:+ "m ago"
  else
    let hours := minutes / 60 in
    if hours <? 24 then pretty hours +:+ "h ago"
    else
      let days := hours / 24 in
      pretty days +:+ "d ago".

Definition render_badge (count : Z) (b : badge) : badge :=
  if 0 <? count then
    mkBadge (if 99 <? count then "99+" else pretty count)
            "inline-block"
            (classList_add "animate-pulse" (badge_classList b))
  else
    mkBadge (badge_textContent b)
            "none"
            (classList_remove "animate-pulse" (badge_classList b)).

Definition updateNotificationCount (count : Z) : js unit :=
  modify (set_notificationCount count);;
  modify (fun p => set_badges (map (render_badge count) (badges p)) p);;
  modify (fun p =>
    set_title
      (if 0 <? count
       then "(" +:+ pretty count +:+ ") " +:+ strip_count_prefix (title p)
       else strip_count_prefix (title p)) p).

Definition showNotificationToast (n : option notification) : js unit :=
  match n with
  | None => throw TypeError
  | Some n =>
      emit (Toast (getNotificationIcon (n_type n))
                  (getNotificationTitle (n_type n))
                  (n_content n))
  end.

Definition playNotificationSound : js unit := emit Sound.

Definition showBrowserNotification (n : option notification) : js unit :=
  p ← get;
  if bool_decide (permission p = Some "granted") then
    match n with
    | None => throw TypeError
    | Some n =>
        emit (BrowserNotification (getNotificationTitle (n_type n))
                                  (n_content n)
                                  ("notification-" +:+ n_id n))
    end
  else ret tt.

(** [querySelectorAll('.notification-item')] tests this on each child. *)
Definition is_item (e : element) : bool :=
  classList_contains "notification-item" (classList e).

(** [items[items.length - 1].remove()]: drop the last child that is an
    item, keep every other child in place. *)
Fixpoint remove_last_item (l : list element) : list element :=
  match l with
  | [] => []
  | e :: l' =>
      if is_item e && negb (existsb is_item l') then l'
      else e :: remove_last_item l'
  end.

(** The element [addToNotificationDropdown] creates for a notification,
    with the relative time computed at [now]. *)
Definition notificationElement (now : Z) (n : notification) : element :=
  mkElement ["notification-item"; "unread"] (Some (n_id n))
    (Some (mkItemBody (getNotificationIcon (n_type n))
                      (getNotificationTitle (n_type n))
                      (n_content n)
                      (getTimeAgo now (n_created_at n))
                      n)).

Definition addToNotificationDropdown (n : option notification) : js unit :=
  p ← get;
  match dropdown p with
  | None => ret tt
  | Some children =>
      match n with
      | None => throw TypeError
      | Some n =>
          let children := notificationElement (clock p) n :: children in
          let items := filter (fun e => is_item e = true) children in
          modify (set_dropdown
                    (Some (if (10 <? length items)%nat
                           then remove_last_item children
                           else children)))
      end
  end.

(** The text [[data-notification-id="ID"]] as a selector.  An id without
    double quote, backslash, line break and NUL is the value of the
    attribute selector.  A line break inside the quotes makes a bad string;
    a double quote ends the value, and when nothing after it can take the
    string opened by the template's own closing quote (no [=], no bracket
    that opens a function, no comment, no further quote or escape) the text
    is not a selector: [querySelector] throws [SyntaxError].  Any other
    text may be a different selector, which is outside the model. *)
Inductive selector := AttrEquals (v : string) | NotASelector | AnotherSelector.

Definition code (c : ascii) : Z := Z.of_nat (nat_of_ascii c).

Definition is_line_break (c : ascii) : bool :=
  (code c =? 10) || (code c =? 12) || (code c =? 13).

Definition is_dquote (c : ascii) : bool := code c =? 34.

Fixpoint no_char (bad : ascii -> bool) (s : string) : bool :=
  match s with
  | EmptyString => true
  | String c r => negb (bad c) && no_char bad r
  end.

(** Characters after a closing quote that could give the rest a meaning:
    quotes, backslash, [=], an opening parenthesis, [/] and NUL. *)
Definition may_continue (c : ascii) : bool :=
  is_dquote c || (code c =? 39) || (code c =? 92) || (code c =? 61) ||
  (code c =? 40) || (code c =? 47) || (code c =? 0).

Fixpoint selector_scan (s : string) : option selector :=
  match s with
  | EmptyString => None
  | String c r =>
      if is_line_break c then Some NotASelector
      else if is_dquote c
           then Some (if no_char may_continue r then NotASelector
                      else AnotherSelector)
      else if (code c =? 92) || (code c =? 0) then Some AnotherSelector
      else selector_scan r
  end.

Definition selector_of_id (notificationId' : string) : selector :=
  match selector_scan notificationId' with
  | None => AttrEquals notificationId'
  | Some sel => sel
  end.

(** [document.querySelector('[data-notification-id="..."]')]: position and
    value of the first element carrying that id. *)
Definition querySelector_notification_id (notificationId' : string) (p : page)
  : completion (option (nat * element)) :=
  match selector_of_id notificationId' with
  | AttrEquals v =>
      Returned
        match dropdown p with
        | None => None
        | Some children =>
            list_find (fun e => notificationId e = Some v) children
        end
  | NotASelector => Threw SyntaxError
  | AnotherSelector => Threw OutsideModel
  end.

Definition removeFromNotificationDropdown (notificationId' : string) : js unit :=
  p ← get;
  match querySelector_notification_id notificationId' p with
  | Returned (Some (i, item)) =>
      let item' :=
        mkElement (classList_add "read" (classList_remove "unread" (classList item)))
                  (notificationId item) (body item) in
      modify (set_dropdown (option_map (fun children => <[i := item']> children)
                                       (dropdown p)))
  | Returned None => ret tt
  | Threw e => throw e
  end.

Definition handleNewNotification (n : option notification) : js unit :=
  modify (fun p => set_notificationCount (notificationCount p + 1) p);;
  p ← get;
  updateNotificationCount (notificationCount p);;
  showNotificationToast n;;
  playNotificationSound;;
  showBrowserNotification n;;
  addToNotificationDropdown n.

Definition handleNotificationRead (notificationId' : string) : js unit :=
  p ← get;
  (if 0 <? notificationCount p then
     modify (fun p => set_notificationCount (notificationCount p - 1) p);;
     p ← get;
     updateNotificationCount (notificationCount p)
   else ret tt);;
  removeFromNotificationDropdown notificationId'.

Definition handleMessage (data : message) : js unit :=
  match data with
  | notification_count count => updateNotificationCount count
  | new_notification n => handleNewNotification n
  | notification_read notificationId' => handleNotificationRead notificationId'
  | other_message _ => ret tt
  end.

Definition markAsRead (notificationId' : string) : js unit :=
  p ← get;
  if socket_is_open p then
    match socket p with
    | Some h => send h (mkOutbound "mark_read" notificationId')
    | None => throw TypeError
    end
  else ret tt.

(** The four handlers [connectWebSocket] installs on every socket it
    constructs.  [event.data] is [None] when it is not JSON text. *)
Definition onopen : js unit :=
  emit (ConsoleLog "Notification WebSocket connected");;
  modify (set_isConnected true);;
  modify (set_reconnectAttempts 0%nat);;
  modify (set_reconnectDelay 1000);;
  updateConnectionStatus true.

Definition onmessage (event_data : option message) : js unit :=
  match event_data with
  | None => throw SyntaxError
  | Some data => handleMessage data
  end.

Definition onclose : js unit :=
  emit (ConsoleLog "Notification WebSocket disconnected");;
  modify (set_isConnected false);;
  updateConnectionStatus false;;
  scheduleReconnect.

Definition onerror : js unit :=
  emit (ConsoleError "Notification WebSocket error:");;
  modify (set_isConnected false);;
  updateConnectionStatus false.

(** [init]: with a current user the client connects.  ([setupUI] and the
    permission request build markup and ask the user; the document is
    taken as it stands once they are done.) *)
Definition init (currentUserId : bool) (constructs : bool) : js unit :=
  if currentUserId then connectWebSocket constructs else ret tt.

(** ** The event loop

    The browser runs one task at a time, each to completion: a socket
    opens, delivers a message, reports an error or closes, or a timeout
    fires.  An exception that escapes a handler ends that task and leaves
    the page as the handler wrote it. *)

Inductive event :=
| ws_open (h : nat)
| ws_message (h : nat) (event_data : option message)
| ws_error (h : nat)
| ws_closing (h : nat)
| ws_close (h : nat)
| timeout (i : nat) (constructs : bool).

Definition set_readyState (h : nat) (st : ready_state) (p : page) : page :=
  match sockets p !! h with
  | Some w => set_sockets (<[h := mkWebSocket (url w) st (sent w)]> (sockets p)) p
  | None => p
  end.

Definition readyState_of (h : nat) (p : page) : option ready_state :=
  readyState <$> sockets p !! h.

(** The task run for an event.  A socket opens only while connecting,
    delivers messages only while open, starts its closing handshake only
    while open (a task of its own, with no handler of the client) and closes
    at most once; a timeout fires at most once.  Any other event does not occur: its task is
    empty.  A browser reports the failure of a connection as an error event
    followed by a close event; the two are separate tasks here, and the
    ready state becomes [CLOSED] with the second. *)
Definition dispatch (e : event) : js unit :=
  p ← get;
  match e with
  | ws_open h =>
      if bool_decide (readyState_of h p = Some CONNECTING)
      then modify (set_readyState h OPEN);; onopen
      else ret tt
  | ws_message h event_data =>
      if bool_decide (readyState_of h p = Some OPEN)
      then onmessage event_data
      else ret tt
  | ws_error h =>
      match readyState_of h p with
      | Some _ => onerror
      | None => ret tt
      end
  | ws_closing h =>
      if bool_decide (readyState_of h p = Some OPEN)
      then modify (set_readyState h CLOSING)
      else ret tt
  | ws_close h =>
      match readyState_of h p with
      | Some CLOSED | None => ret tt
      | Some _ => modify (set_readyState h CLOSED);; onclose
      end
  | timeout i constructs =>
      match timers p !! i with
      | Some t =>
          if fired t then ret tt
          else
            modify (fun p => set_timers (<[i := mkTimer (delay t) true]> (timers p)) p);;
            connectWebSocket constructs
      | None => ret tt
      end
  end.

Definition step (p : page) (e : event) : page := exec (dispatch e) p.

Definition run (es : list event) (p : page) : page := fold_left step es p.

(** A page load: the constructor assigns its fields on a page that has no
    socket and no timeout yet, then calls [init]. *)
Definition fresh (p : page) : Prop := sockets p = [] /\ timers p = [].

Definition load (currentUserId constructs : bool) (p : page) : page :=
  exec (init currentUserId constructs) (constructor_fields p).

(** Sockets that are not closed, timeouts that have not fired, and the
    delays of all timeouts armed so far, oldest first. *)
Definition live (p : page) : list WebSocket :=
  filter (fun w => readyState w <> CLOSED) (sockets p).

Definition pending (p : page) : list timer :=
  filter (fun t => fired t = false) (timers p).

Definition scheduled (p : page) : list Z := map delay (timers p).

(** ** Runs in which every connect attempt fails

    A call of [connectWebSocket] fails either because the constructor
    throws, or because the socket it constructed reports an error and closes
    without ever opening. *)

Inductive failure := refused | not_constructed.

Definition constructs_of (f : failure) : bool :=
  match f with refused => true | not_constructed => false end.

(** What the browser does after a failing call of [connectWebSocket]. *)
Definition fail (f : failure) (p : page) : page :=
  match f, socket p with
  | refused, Some h => step (step p (ws_error h)) (ws_close h)
  | _, _ => p
  end.

(** The pending timeout fires, the attempt it makes fails, and so on for as
    long as a timeout is pending; [fs] says how each attempt fails. *)
Fixpoint retries (fs : list failure) (p : page) : page :=
  match fs with
  | [] => p
  | f :: fs' =>
      match list_find (fun t => fired t = false) (timers p) with
      | Some (i, _) => retries fs' (fail f (step p (timeout i (constructs_of f))))
      | None => p
      end
  end.

Definition failing_run (f : failure) (fs : list failure) (p : page) : page :=
  retries fs (fail f (load true (constructs_of f) p)).

(** The backoff series, in milliseconds. *)
Definition series : list Z := [1000; 2000; 4000; 8000; 16000].

(** ** Vocabulary of the specification *)

(** The timer table after [k] scheduling decisions, for [1 <= k <= 6]: the
    first [k - 1] delays of the series have fired and the [k]-th, if the
    series has one, is pending. *)
Definition timer_table (k : nat) : list timer :=
  map (fun d => mkTimer d true) (take (k - 1) series) ++
  map (fun d => mkTimer d false) (take 1 (drop (k - 1) series)).

(** The invariant of a failing run between two attempts. *)
Record backing_off (k : nat) (p : page) : Prop := {
  bo_attempts : reconnectAttempts p = Nat.min k 5;
  bo_max : maxReconnectAttempts p = 5%nat;
  bo_delay : reconnectDelay p = 1000;
  bo_timers : timers p = timer_table k;
  bo_live : live p = [];
  bo_closed : socket_is_open p = false
}.

(** The connection state: what the connection logic reads and writes. *)
Definition link (p : page) :=
  (socket p, reconnectAttempts p, maxReconnectAttempts p, reconnectDelay p,
   sockets p, timers p).

(** A computation keeps [f] when the page it leaves has the [f] it found. *)
Definition keeps {A B} (f : page -> B) (c : js A) : Prop :=
  forall p, f (exec c p) = f p.

(** A computation is total when it returns on every page. *)
Definition total {A} (c : js A) : Prop := forall p, returns c p = true.

(** Identifier text: no line break, double quote, backslash or NUL, so
    that the selector built from it is the attribute selector for it. *)
Definition is_special (c : ascii) : bool :=
  is_line_break c || is_dquote c || (code c =? 92) || (code c =? 0).

Definition plain_id (s : string) : bool := no_char is_special s.

(** Counts the code computes exactly: the safe integers of JavaScript,
    of absolute value below 2^53. *)
Definition safe_integer (c : Z) : Prop := - 2 ^ 53 < c < 2 ^ 53.

(** Notification types as the server names them: a word of letters,
    digits, [_] and [-], so that it is one class name inside the markup of
    an item; not the class [notification-item] itself, which the cap of the
    dropdown counts; and not the name of a property that the tables of
    [getNotificationIcon] and [getNotificationTitle] inherit from
    [Object.prototype], for which they do not fall back. *)
Definition is_word_char (c : ascii) : bool :=
  ((48 <=? code c) && (code c <=? 57)) || ((65 <=? code c) && (code c <=? 90)) ||
  ((97 <=? code c) && (code c <=? 122)) || (code c =? 95) || (code c =? 45).

Definition Object_prototype_keys : list string :=
  ["constructor"; "__proto__"; "hasOwnProperty"; "isPrototypeOf";
   "propertyIsEnumerable"; "toLocaleString"; "toString"; "valueOf";
   "__defineGetter__"; "__defineSetter__"; "__lookupGetter__";
   "__lookupSetter__"].

Definition type_word (t : string) : bool :=
  no_char (fun c => negb (is_word_char c)) t &&
  bool_decide (t ∉ Object_prototype_keys) &&
  bool_decide (t <> "notification-item").

(** Content that [innerHTML] renders as text: no [<] and no [&]. *)
Definition text_only (s : string) : bool :=
  no_char (fun c => (code c =? 60) || (code c =? 38)) s.

(** ASCII text, on which the white space of [trim], [parseInt] and [\s]
    is the white space of [is_space]. *)
Definition ascii_text (s : string) : bool :=
  no_char (fun c => 128 <=? code c) s.

(** A title that [document.title] returns as it was written: not empty,
    its white space single spaces between other characters, so that
    stripping and collapsing white space changes nothing. *)
Fixpoint collapsed_after (space : bool) (s : string) : bool :=
  match s with
  | EmptyString => negb space
  | String c r =>
      if is_space c then (code c =? 32) && negb space && collapsed_after true r
      else collapsed_after false r
  end.

Definition collapsed (s : string) : bool := collapsed_after true s.

(** The count of the page and the counts that the messages carry are
    safe integers, at most [b], with room for one increment for each
    message. *)
Definition counts_within (b : Z) (p : page) (ms : list message) : Prop :=
  - 2 ^ 53 < notificationCount p <= b /\
  Forall (fun m => match m with
                   | notification_count c => - 2 ^ 53 < c <= b
                   | _ => True
                   end) ms /\
  b + Z.of_nat (length ms) < 2 ^ 53.

(** A notification whose fields the model renders as the browser does. *)
Definition plain_notification (n : notification) : Prop :=
  plain_id (n_id n) = true /\ type_word (n_type n) = true /\
  text_only (n_content n) = true.

(** At most one connection is live or about to be attempted. *)
Definition single (p : page) : Prop :=
  (length (live p) + length (pending p) <= 1)%nat.

(** [this.socket] holds a socket that is still connecting. *)
Definition socket_is_connecting (p : page) : bool :=
  match socket p with
  | Some h => bool_decide (readyState_of h p = Some CONNECTING)
  | None => false
  end.

(** The url [connectWebSocket] builds from [window.location]. *)
Definition wsUrl_of (p : page) : string :=
  (if bool_decide (location_protocol p = "https:") then "wss:" else "ws:")
  +:+ "//" +:+ location_host p +:+ "/ws/notifications/".

(** What [updateConnectionStatus(false)] leaves on an indicator. *)
Definition shows_disconnected (i : indicator) : Prop :=
  ind_textContent i = "Disconnected" /\
  "text-danger" ∈ ind_classList i /\ "text-success" ∉ ind_classList i.

(** Inbound messages handled one after the other. *)
Definition deliver (ms : list message) (p : page) : page :=
  fold_left (fun p m => exec (handleMessage m) p) ms p.

(** What [removeFromNotificationDropdown] does to the element it finds. *)
Definition mark_read (e : element) : element :=
  mkElement (classList_add "read" (classList_remove "unread" (classList e)))
            (notificationId e) (body e).

(** The notification items of the dropdown, in document order, and its
    other children. *)
Definition recent (p : page) : list element :=
  match dropdown p with
  | Some children => filter (fun e => is_item e = true) children
  | None => []
  end.


(** The children of the dropdown after an insertion. *)
Definition inserted (now : Z) (n : notification) (children : list element)
  : list element :=
  if (10 <? length (filter (fun e => is_item e = true)
                      (notificationElement now n :: children)))%nat
  then remove_last_item (notificationElement now n :: children)
  else notificationElement now n :: children.

(** ** Example pages *)

(** The placeholder [createNotificationBell] puts into the dropdown menu. *)
Definition placeholder : element :=
  mkElement ["text-center"; "py-3"; "text-muted"] None None.

(** A page with the bell's badge and dropdown and one status indicator. *)
Definition bell_page : page :=
  mkPage None 0 false 0%nat 5%nat 1000 [] []
    [mkBadge "0" "none" ["notification-badge"]]
    [mkIndicator "" ["connection-status"]]
    (Some [placeholder]) "Hireo" (Some "default") 0 "https:" "hireo.example" [].


(** A page with two unread items and the placeholder. *)
Definition two_unread : page :=
  mkPage None 2 false 0%nat 5%nat 1000 [] []
    [mkBadge "2" "inline-block" ["notification-badge"; "animate-pulse"]] []
    (Some [mkElement ["notification-item"; "unread"] (Some "n2") None;
           mkElement ["notification-item"; "unread"] (Some "n1") None;
           placeholder])
    "(2) Hireo" (Some "default") 0 "https:" "hireo.example" [].

(** Eleven notifications, numbered in arrival order. *)
Definition arrival (k : Z) : notification :=
  mkNotification ("n" +:+ pretty k) "message" "hi" 0 None.


(** ** Marking every notification as read *)

(** [parseInt(string)] with no radix, on ASCII text: leading white space is
    skipped, a sign is read, [0x] or [0X] selects radix 16, and the longest
    run of digits is the value; [None] is [NaN].  Values are exact integers,
    as JavaScript numbers are below 2^53. *)
Definition digit_value (radix : Z) (c : ascii) : option Z :=
  let n := Z.of_nat (nat_of_ascii c) in
  let v := if (48 <=? n) && (n <=? 57) then Some (n - 48)
           else if (97 <=? n) && (n <=? 122) then Some (n - 87)
           else if (65 <=? n) && (n <=? 90) then Some (n - 55)
           else None in
  match v with
  | Some d => if d <? radix then Some d else None
  | None => None
  end.

Fixpoint parse_digits (radix : Z) (acc : Z) (s : string) : Z :=
  match s with
  | String c r =>
      match digit_value radix c with
      | Some d => parse_digits radix (acc * radix + d) r
      | None => acc
      end
  | EmptyString => acc
  end.

Fixpoint ltrim (s : string) : string :=
  match s with
  | String c r => if is_space c then ltrim r else s
  | EmptyString => s
  end.

(** The digits of [s] in the given radix; [NaN] when there is none. *)
Definition parse_radix (radix : Z) (s : string) : option Z :=
  match s with
  | String c _ =>
      match digit_value radix c with
      | Some _ => Some (parse_digits radix 0 s)
      | None => None
      end
  | EmptyString => None
  end.

Definition parse_unsigned (s : string) : option Z :=
  match s with
  | String c (String x r) =>
      if bool_decide (c = "0"%char /\ (x = "x"%char \/ x = "X"%char))
      then parse_radix 16 r
      else parse_radix 10 s
  | _ => parse_radix 10 s
  end.

Definition parseInt (s : string) : option Z :=
  match ltrim s with
  | String c r =>
      if bool_decide (c = "-"%char) then Z.opp <$> parse_unsigned r
      else if bool_decide (c = "+"%char) then parse_unsigned r
      else parse_unsigned (String c r)
  | EmptyString => None
  end.

(** The text of a number in a frame, as [JSON.stringify] writes it: the
    decimal numeral, and [null] for [NaN].  A frame's [notification_id] is
    the text of the value, whether it was a string or a number. *)
Definition number_text (n : option Z) : string :=
  match n with Some z => pretty z | None => "null" end.

(** [item.dataset.notificationId] as [parseInt] reads it: an element
    without the attribute gives [undefined]. *)
Definition dataset_text (e : element) : string :=
  match notificationId e with Some i => i | None => "undefined" end.

(** Elements matched by ['.notification-item.unread']; like the elements
    that carry an id, they are children of the dropdown. *)
Definition is_unread_item (e : element) : bool :=
  classList_contains "notification-item" (classList e) &&
  classList_contains "unread" (classList e).

Definition unread (p : page) : list element :=
  match dropdown p with
  | Some children => filter (fun e => is_unread_item e = true) children
  | None => []
  end.

Fixpoint forEach {A} (f : A -> js unit) (l : list A) : js unit :=
  match l with
  | [] => ret tt
  | x :: l' => f x;; forEach f l'
  end.

Definition markAllAsRead : js unit :=
  p ← get;
  let unreadItems := unread p in
  forEach (fun item => markAsRead (number_text (parseInt (dataset_text item))))
          unreadItems.

(** The frame [markAllAsRead] sends for an item. *)
Definition frame_of (e : element) : outbound :=
  mkOutbound "mark_read" (number_text (parseInt (dataset_text e))).

(** ** The page scripts of static/js/main.js

    Text is ASCII: [trim] and [\s] strip the ASCII white space. *)

(** [s.split(sep)] for a one-character separator. *)
Fixpoint split_on (sep : ascii) (s : string) : list string :=
  match s with
  | EmptyString => [EmptyString]
  | String c r =>
      if bool_decide (c = sep) then EmptyString :: split_on sep r
      else match split_on sep r with
           | h :: t => String c h :: t
           | [] => [String c EmptyString]
           end
  end.

(** [s.trim()]. *)
Fixpoint rtrim (s : string) : string :=
  match s with
  | EmptyString => EmptyString
  | String c r =>
      match rtrim r with
      | EmptyString => if is_space c then EmptyString else String c EmptyString
      | r' => String c r'
      end
  end.

Definition trim (s : string) : string := rtrim (ltrim s).

(** [s.substring(n)]. *)
Fixpoint substring_from (n : nat) (s : string) : string :=
  match n, s with
  | O, _ => s
  | S n', String _ r => substring_from n' r
  | S _, EmptyString => EmptyString
  end.

(** [getCookie(name)] reads [document.cookie]; [decodeURIComponent] is the
    browser's, and throws on a malformed escape. *)
Section GetCookie.
Variable decodeURIComponent : string -> completion string.

(** The [for] loop of [getCookie], over the pieces of [document.cookie];
    it stops at the first piece that starts with [name=]. *)
Fixpoint getCookie_loop (name : string) (cookies : list string)
  : completion (option string) :=
  match cookies with
  | [] => Returned None
  | c :: rest =>
      let cookie := trim c in
      if bool_decide (substring 0 (String.length name + 1) cookie = name +:+ "=")
      then match decodeURIComponent
                   (substring_from (String.length name + 1) cookie) with
           | Returned v => Returned (Some v)
           | Threw e => Threw e
           end
      else getCookie_loop name rest
  end.

Definition getCookie (document_cookie name : string)
  : completion (option string) :=
  if bool_decide (document_cookie <> "")
  then getCookie_loop name (split_on ";" document_cookie)
  else Returned None.

(** What [getCookie] makes of a value it found. *)
Definition decoded (v : option string) : completion (option string) :=
  match v with
  | Some v => match decodeURIComponent v with
              | Returned x => Returned (Some x)
              | Threw e => Threw e
              end
  | None => Returned None
  end.
End GetCookie.

(** Cookie names and values as they are written into [document.cookie]:
    no white space and no [;], and no [=] in a name. *)
Fixpoint token (s : string) : bool :=
  match s with
  | EmptyString => true
  | String c r => negb (is_space c) && negb (bool_decide (c = ";"%char)) && token r
  end.

Fixpoint cookie_name (s : string) : bool :=
  match s with
  | EmptyString => true
  | String c r =>
      negb (is_space c) && negb (bool_decide (c = ";"%char)) &&
      negb (bool_decide (c = "="%char)) && cookie_name r
  end.

Definition pair_text (kv : string * string) : string := kv.1 +:+ "=" +:+ kv.2.

(** [document.cookie] for a jar: the pairs joined by a semicolon and a
    space. *)
Fixpoint jar_text (jar : list (string * string)) : string :=
  match jar with
  | [] => ""
  | [kv] => pair_text kv
  | kv :: rest => pair_text kv +:+ "; " +:+ jar_text rest
  end.

(** The value of the first pair named [name]. *)
Fixpoint jar_lookup (name : string) (jar : list (string * string))
  : option string :=
  match jar with
  | [] => None
  | kv :: rest => if bool_decide (kv.1 = name) then Some kv.2
                  else jar_lookup name rest
  end.

Definition well_formed (jar : list (string * string)) : Prop :=
  Forall (fun kv => cookie_name kv.1 = true /\ token kv.2 = true) jar.

(** The submit handler of [#searchForm], on the values of the two inputs:
    the warning it shows when it stops the submission, [None] when the
    form is submitted. *)
Definition searchForm_submit (query location : string) : option (string * string) :=
  let query := trim query in
  let location := trim location in
  if bool_decide (query = "") && bool_decide (location = "")
  then Some ("Please enter at least a job title or location", "warning")
  else None.

(** The education fields of the profile form, in document order; a field
    is the index that the names of its inputs carry,
    [education[index][...]].  There is one ['.education-fields']
    container. *)
Definition add_education_field (fields : list nat) : list nat :=
  let fieldCount := length fields in
  fields ++ [fieldCount].

(** A click on the remove button of the field at position [i]. *)
Definition remove_education_field (i : nat) (fields : list nat) : list nat :=
  delete i fields.

(** The skills input and the tags of ['.skills-tags'], each tag the text
    that was put into its markup. *)
Record skills_widget := mkSkills {
  input_value : string;
  skills_tags : list string
}.

Definition addSkillTag (skill : string) (w : skills_widget) : skills_widget :=
  mkSkills (input_value w) (skills_tags w ++ [skill]).

(** The [keydown] handler: whether it prevented the default action, and
    the widget it leaves. *)
Definition skills_keydown (key : string) (w : skills_widget)
  : bool * skills_widget :=
  if bool_decide (key = "Enter" \/ key = ",") then
    let value := trim (input_value w) in
    if bool_decide (value <> "")
    then let w := addSkillTag value w in
         (true, mkSkills "" (skills_tags w))
    else (true, w)
  else (false, w).

(** What happens to the widget: the user edits the input, presses a key
    in it, or clicks the cross of the tag at position [i]. *)
Inductive skills_event :=
  | Typed (value : string)
  | Keydown (key : string)
  | RemoveSkill (i : nat).

Definition skills_step (w : skills_widget) (e : skills_event) : skills_widget :=
  match e with
  | Typed value => mkSkills value (skills_tags w)
  | Keydown key => (skills_keydown key w).2
  | RemoveSkill i => mkSkills (input_value w) (delete i (skills_tags w))
  end.

(** ** The gamification widgets *)

(** [String(number)], with [NaN] for [None]. *)
Definition number_string (n : option Z) : string :=
  match n with Some z => pretty z | None => "NaN" end.

(** [refreshStats]: [xpElement] is the text of the first
    ['.stat-item strong'], if there is one; [r] is
    [Math.floor(Math.random() * 10)]. *)
Definition refreshStats (r : Z) (xpElement : option string) : option string :=
  match xpElement with
  | Some textContent =>
      let currentXP := parseInt textContent in
      let newXP := (fun x => x + r) <$> currentXP in
      Some (number_string newXP)
  | None => None
  end.

(** The achievement filters: the buttons of ['.achievement-filters'] with
    their [data-filter], the badges with their [data-category], and the
    [style.display] of the badges' parent elements; [a_parent] is the
    position of a badge's parent among them. *)
Record filter_button := mkFilterButton {
  fb_classList : list string;
  fb_filter : option string
}.

Record achievement := mkAchievement {
  a_category : option string;
  a_parent : nat
}.

Record gallery := mkGallery {
  filterButtons : list filter_button;
  achievements : list achievement;
  parents : list string
}.

Definition fb_remove (c : string) (b : filter_button) : filter_button :=
  mkFilterButton (classList_remove c (fb_classList b)) (fb_filter b).

Definition fb_add (c : string) (b : filter_button) : filter_button :=
  mkFilterButton (classList_add c (fb_classList b)) (fb_filter b).

(** What the click listener writes into the parent of a badge. *)
Definition achievement_display (filter : option string) (a : achievement)
  : string :=
  if bool_decide (filter = Some "all") then "block"
  else if bool_decide (a_category a = filter) then "block"
  else "none".

Definition show_achievements (filter : option string)
    (achs : list achievement) (ps : list string) : list string :=
  fold_left (fun ps a => <[a_parent a := achievement_display filter a]> ps)
            achs ps.

(** The click listener of the button at position [i]. *)
Definition click_filter (i : nat) (g : gallery) : gallery :=
  let buttons := fb_remove "active" <$> filterButtons g in
  match buttons !! i with
  | None => g
  | Some this =>
      let buttons := <[i := fb_add "active" this]> buttons in
      let filter := fb_filter this in
      mkGallery buttons (achievements g)
                (show_achievements filter (achievements g) (parents g))
  end.

(** ** Vocabulary of the further properties *)

(** An item whose id [parseInt] and [JSON.stringify] treat as the model
    does: ASCII text, and a safe integer when it is a numeral. *)
Definition frame_exact (e : element) : Prop :=
  ascii_text (dataset_text e) = true /\
  match parseInt (dataset_text e) with
  | Some z => safe_integer z
  | None => True
  end.

(** The reconnect parameters are the constructor's, the attempt counter is
    within its maximum, and every timeout armed so far has a delay of the
    backoff series. *)
Definition backoff_bounded (p : page) : Prop :=
  maxReconnectAttempts p = 5%nat /\ reconnectDelay p = 1000 /\
  (reconnectAttempts p <= 5)%nat /\
  Forall (fun t => delay t ∈ series) (timers p).

(** No socket is live and no reconnect timeout is pending. *)
Definition quiescent (p : page) : Prop := live p = [] /\ pending p = [].

(** [this.socket] is open or in its closing handshake. *)
Definition socket_is_up (p : page) : bool :=
  match socket p with
  | Some h =>
      match sockets p !! h with
      | Some w => bool_decide (readyState w = OPEN \/ readyState w = CLOSING)
      | None => false
      end
  | None => false
  end.

(** Every socket that is not closed is [this.socket], and the flag
    [isConnected] is set only while [this.socket] is open or closing. *)
Definition flag_sound (p : page) : Prop :=
  (forall h w, sockets p !! h = Some w -> readyState w <> CLOSED ->
               socket p = Some h) /\
  (isConnected p = true -> socket_is_up p = true).



(** What a badge looks like when it shows the count [c]. *)
Definition badge_shows (c : Z) (b : badge) : Prop :=
  if 0 <? c
  then badge_textContent b = (if 99 <? c then "99+" else pretty c) /\
       badge_display b = "inline-block" /\
       "animate-pulse" ∈ badge_classList b
  else badge_display b = "none" /\ "animate-pulse" ∉ badge_classList b.

Definition count_shown (p : page) : Prop :=
  Forall (badge_shows (notificationCount p)) (badges p).

(** The title that shows the count [c] in front of [base]. *)
Definition decorate (c : Z) (base : string) : string :=
  if 0 <? c then "(" +:+ pretty c +:+ ") " +:+ base else base.

Definition title_shown (base : string) (p : page) : Prop :=
  title p = decorate (notificationCount p) base.

Fixpoint all_digits (s : string) : bool :=
  match s with
  | EmptyString => true
  | String c r => is_digit c && all_digits r
  end.

(** Messages that write the count and render it. *)
Definition renders_count (m : message) : bool :=
  match m with
  | notification_count _ | new_notification _ => true
  | _ => false
  end.

(** A [notification_count] message carries a count that is not negative. *)
Definition count_ok (m : message) : Prop :=
  match m with notification_count c => 0 <= c | _ => True end.

(** [refreshStats] called once for each random number of [rs]. *)
Definition refreshes (rs : list Z) (xpElement : option string) : option string :=
  fold_left (fun x r => refreshStats r x) rs xpElement.

Definition sum (rs : list Z) : Z := fold_right Z.add 0 rs.

(** Text that holds nothing but white space. *)
Fixpoint blank (s : string) : bool :=
  match s with
  | EmptyString => true
  | String c r => is_space c && blank r
  end.

Definition first_char (s : string) : option ascii :=
  match s with String c _ => Some c | EmptyString => None end.

Fixpoint last_char (s : string) : option ascii :=
  match s with
  | EmptyString => None
  | String c EmptyString => Some c
  | String _ r => last_char r
  end.

Definition not_space (c : option ascii) : Prop :=
  exists x, c = Some x /\ is_space x = false.

(** A tag of ASCII text that is not empty and neither starts nor ends
    with white space. *)
Definition tidy (t : string) : Prop :=
  ascii_text t = true /\ not_space (first_char t) /\ not_space (last_char t).

(** The user types ASCII text. *)
Definition typed_ascii (e : skills_event) : Prop :=
  match e with Typed value => ascii_text value = true | _ => True end.

Definition is_active (b : filter_button) : Prop := "active" ∈ fb_classList b.

(** A page whose dropdown holds two unread items with numeric ids and a
    read one, with its socket open. *)
Definition numbered_unread : page :=
  mkPage (Some 0%nat) 2 true 0%nat 5%nat 1000
    [mkWebSocket "wss://hireo.example/ws/notifications/" OPEN []] []
    [mkBadge "2" "inline-block" ["notification-badge"; "animate-pulse"]] []
    (Some [mkElement ["notification-item"; "unread"] (Some "42") None;
           mkElement ["notification-item"; "read"] (Some "41") None;
           mkElement ["notification-item"; "unread"] (Some "7") None;
           placeholder])
    "(2) Hireo" (Some "default") 0 "https:" "hireo.example" [].

(** A gallery of three filter buttons and three badges, each badge in a
    wrapper of its own. *)
Definition trophy_gallery : gallery :=
  mkGallery
    [mkFilterButton ["btn"; "active"] (Some "all");
     mkFilterButton ["btn"] (Some "skills");
     mkFilterButton ["btn"] (Some "streak")]
    [mkAchievement (Some "skills") 0; mkAchievement (Some "streak") 1;
     mkAchievement (Some "skills") 2]
    ["block"; "block"; "block"].

(** ** Reasoning about computations *)

Ltac js_run :=
  unfold step, fail, exec, returns, dispatch, init, load, onopen, onmessage,
    onerror, onclose, connectWebSocket, scheduleReconnect, new_WebSocket,
    setTimeout, updateConnectionStatus, constructor_fields, socket_is_open,
    readyState_of, set_readyState, live, pending, scheduled,
    mbind, mret, js_bind, js_ret, bind, ret, get, modify, throw, try_catch,
    emit in *;
  simpl in *.

Ltac destruct_page p :=
  destruct p as [so nc ic ra mx rd ss ts bs ins dd ti pe cl lp lh ef].

Lemma insert_snoc {A} (l : list A) (x y : A) :
  <[length l := y]> (l ++ [x]) = l ++ [y].
Proof. rewrite insert_app_r_alt by lia. by rewrite Nat.sub_diag. Qed.

Lemma lookup_snoc {A} (l : list A) (x : A) : (l ++ [x]) !! length l = Some x.
Proof. by apply list_lookup_middle. Qed.

Lemma live_snoc_closed (ws : list WebSocket) (u : string) (fr : list outbound) :
  filter (fun w => readyState w <> CLOSED) (ws ++ [mkWebSocket u CLOSED fr])
  = filter (fun w => readyState w <> CLOSED) ws.
Proof.
  rewrite filter_app, filter_cons_False, filter_nil by (simpl; congruence).
  apply app_nil_r.
Qed.

(** *** The backoff series *)

Lemma backing_off_start (f : failure) (p : page) :
  fresh p -> backing_off 1 (fail f (load true (constructs_of f) p)).
Proof.
  intros [Hs Ht]. destruct p; simpl in *; subst.
  destruct f; split; reflexivity.
Qed.

Lemma one_to_five (k : nat) :
  (1 <= k <= 5)%nat -> k = 1%nat \/ k = 2%nat \/ k = 3%nat \/ k = 4%nat \/ k = 5%nat.
Proof. lia. Qed.

Lemma backing_off_pending (k : nat) (p : page) :
  (1 <= k <= 5)%nat -> backing_off k p ->
  exists t, list_find (fun t => fired t = false) (timers p) = Some ((k - 1)%nat, t).
Proof.
  intros Hk [_ _ _ Ht _ _]. rewrite Ht.
  destruct (one_to_five k Hk) as [-> | [-> | [-> | [-> | ->]]]];
    eexists; reflexivity.
Qed.

Lemma backing_off_not_constructed (k : nat) (p : page) :
  (1 <= k <= 5)%nat -> backing_off k p ->
  backing_off (S k) (fail not_constructed (step p (timeout (k - 1) false))).
Proof.
  intros Hk [Ha Hm Hd Ht Hl Hc]. destruct p; simpl in *; subst.
  destruct (one_to_five k Hk) as [-> | [-> | [-> | [-> | ->]]]];
    js_run; rewrite Hc; simpl; split; done.
Qed.

Lemma backing_off_refused (k : nat) (p : page) :
  (1 <= k <= 5)%nat -> backing_off k p ->
  backing_off (S k) (fail refused (step p (timeout (k - 1) true))).
Proof.
  intros Hk [Ha Hm Hd Ht Hl Hc]. destruct p; simpl in *; subst.
  destruct (one_to_five k Hk) as [-> | [-> | [-> | [-> | ->]]]];
    js_run; rewrite Hc; simpl; repeat (rewrite lookup_snoc; simpl);
    rewrite insert_snoc;
    (split; js_run; rewrite ?lookup_snoc, ?live_snoc_closed; done).
Qed.

Lemma backing_off_retries (fs : list failure) (k : nat) (p : page) :
  (1 <= k <= 6)%nat -> backing_off k p ->
  backing_off (Nat.min (k + length fs) 6) (retries fs p).
Proof.
  revert k p. induction fs as [|f fs IH]; intros k p Hk Hp; simpl.
  - replace (Nat.min (k + 0) 6) with k by lia. exact Hp.
  - destruct (decide (k = 6%nat)) as [-> | Hne].
    + destruct Hp as [Ha Hm Hd Ht Hl Hc]. rewrite Ht. simpl.
      split; done.
    + assert (1 <= k <= 5)%nat as Hk' by lia.
      destruct (backing_off_pending k p Hk' Hp) as [t ->].
      replace (Nat.min (k + S (length fs)) 6)
        with (Nat.min (S k + length fs) 6) by lia.
      apply IH; [lia|].
      destruct f; [by apply backing_off_refused | by apply backing_off_not_constructed].
Qed.

Lemma scheduled_timer_table (k : nat) :
  (1 <= k <= 6)%nat -> map delay (timer_table k) = take k series.
Proof.
  intros Hk.
  assert (k = 1 \/ k = 2 \/ k = 3 \/ k = 4 \/ k = 5 \/ k = 6)%nat
    as [-> | [-> | [-> | [-> | [-> | ->]]]]] by lia; reflexivity.
Qed.

(** *** Frames and the single connection *)

Section Keeps.
Context {B : Type} (f : page -> B).

Lemma keeps_ret {A} (a : A) : keeps f (ret a).
Proof. by intros p. Qed.

Lemma keeps_throw {A} (e : exn) : keeps f (@throw A e).
Proof. by intros p. Qed.

Lemma keeps_get : keeps f get.
Proof. by intros p. Qed.

Lemma keeps_modify (g : page -> page) :
  (forall p, f (g p) = f p) -> keeps f (modify g).
Proof. intros Hg p. apply Hg. Qed.

Lemma keeps_bind {A C} (c : js A) (k : A -> js C) :
  keeps f c -> (forall a, keeps f (k a)) -> keeps f (c ≫= k).
Proof.
  intros Hc Hk p. specialize (Hc p).
  unfold exec, mbind, js_bind, bind in *.
  destruct (c p) as [[a|e] p'] eqn:E; simpl in *; [|done].
  rewrite <- Hc. apply (Hk a p').
Qed.
End Keeps.

Lemma updateNotificationCount_link (count : Z) :
  keeps link (updateNotificationCount count).
Proof.
  unfold updateNotificationCount.
  repeat (apply keeps_bind; [|intros ?]); apply keeps_modify; intros []; reflexivity.
Qed.

Ltac keeps_step :=
  lazymatch goal with
  | |- keeps _ (ret _) => apply keeps_ret
  | |- keeps _ (throw _) => apply keeps_throw
  | |- keeps _ get => apply keeps_get
  | |- keeps _ (modify _) => apply keeps_modify; intros []; reflexivity
  | |- keeps _ (emit _) => apply keeps_modify; intros []; reflexivity
  | |- keeps _ (_ ≫= _) => apply keeps_bind; [|intros ?]
  | |- keeps _ (if ?c then _ else _) => destruct c
  | |- keeps _ (match ?x with _ => _ end) => destruct x
  | |- keeps _ _ =>
      progress unfold updateNotificationCount, showNotificationToast,
        playNotificationSound, showBrowserNotification,
        addToNotificationDropdown, removeFromNotificationDropdown,
        updateConnectionStatus, setTimeout
  end.

Lemma handleMessage_link (data : message) : keeps link (handleMessage data).
Proof.
  destruct data as [c | n | i | t]; simpl.
  - apply updateNotificationCount_link.
  - unfold handleNewNotification, showNotificationToast, playNotificationSound,
      showBrowserNotification, addToNotificationDropdown.
    repeat keeps_step.
  - unfold handleNotificationRead, removeFromNotificationDropdown.
    repeat keeps_step.
  - keeps_step.
Qed.

Lemma onmessage_link (event_data : option message) :
  keeps link (onmessage event_data).
Proof.
  destruct event_data; simpl; [apply handleMessage_link | keeps_step].
Qed.

Lemma onerror_link : keeps link onerror.
Proof. unfold onerror, updateConnectionStatus. repeat keeps_step. Qed.

Lemma filter_length_insert_drop {A} (P : A -> Prop) `{forall x, Decision (P x)}
    (l : list A) (i : nat) (x y : A) :
  l !! i = Some x -> P x -> ~ P y ->
  S (length (filter P (<[i := y]> l))) = length (filter P l).
Proof.
  intros Hi Hx Hy.
  rewrite insert_take_drop by (by apply lookup_lt_Some with x).
  rewrite <- (take_drop_middle l i x Hi) at 3.
  rewrite !filter_app, !length_app.
  rewrite filter_cons_False, filter_cons_True by done. simpl. lia.
Qed.

Lemma filter_length_insert_keep {A} (P : A -> Prop) `{forall x, Decision (P x)}
    (l : list A) (i : nat) (x y : A) :
  l !! i = Some x -> P x -> P y ->
  length (filter P (<[i := y]> l)) = length (filter P l).
Proof.
  intros Hi Hx Hy.
  rewrite insert_take_drop by (by apply lookup_lt_Some with x).
  rewrite <- (take_drop_middle l i x Hi) at 3.
  rewrite !filter_app, !length_app.
  rewrite !filter_cons_True by done. simpl. lia.
Qed.

Lemma total_ret {A} (a : A) : total (ret a).
Proof. by intros p. Qed.

Lemma total_get : total get.
Proof. by intros p. Qed.

Lemma total_modify (g : page -> page) : total (modify g).
Proof. by intros p. Qed.

Lemma total_bind {A C} (c : js A) (k : A -> js C) :
  total c -> (forall a, total (k a)) -> total (c ≫= k).
Proof.
  intros Hc Hk p. specialize (Hc p).
  unfold returns, mbind, js_bind, bind in *.
  destruct (c p) as [[a|e] p'] eqn:E; simpl in *; [|done].
  apply (Hk a p').
Qed.

Ltac total_step :=
  lazymatch goal with
  | |- total (ret _) => apply total_ret
  | |- total get => apply total_get
  | |- total (modify _) => apply total_modify
  | |- total (emit _) => apply total_modify
  | |- total (_ ≫= _) => apply total_bind; [|intros ?]
  | |- total (if ?c then _ else _) => destruct c
  | |- total (match ?x with _ => _ end) => destruct x
  | |- total _ =>
      progress unfold updateNotificationCount, playNotificationSound,
        removeFromNotificationDropdown, updateConnectionStatus, setTimeout
  end.

(** Sequencing after a computation that returns, and after [get]. *)
Lemma exec_bind_unit (c : js unit) {C} (k : unit -> js C) (p : page) :
  returns c p = true -> exec (c ≫= k) p = exec (k tt) (exec c p).
Proof.
  unfold returns, exec, mbind, js_bind, bind.
  destruct (c p) as [[[]|e] p']; simpl; intros H; [done | discriminate].
Qed.

Lemma returns_bind_unit (c : js unit) {C} (k : unit -> js C) (p : page) :
  returns c p = true -> returns (c ≫= k) p = returns (k tt) (exec c p).
Proof.
  unfold returns, exec, mbind, js_bind, bind.
  destruct (c p) as [[[]|e] p']; simpl; intros H; [done | discriminate].
Qed.

Lemma exec_bind_get {C} (k : page -> js C) (p : page) :
  exec (get ≫= k) p = exec (k p) p.
Proof. reflexivity. Qed.

Lemma total_updateNotificationCount (count : Z) :
  total (updateNotificationCount count).
Proof. repeat total_step. Qed.

Lemma notificationCount_update (count : Z) (p : page) :
  notificationCount (exec (updateNotificationCount count) p) = count.
Proof. by destruct_page p. Qed.

Lemma live_none_not_open (p : page) : live p = [] -> socket_is_open p = false.
Proof.
  unfold live, socket_is_open. intros Hl.
  destruct (socket p) as [h|]; [|done].
  destruct (sockets p !! h) as [w|] eqn:Hw; [|done].
  apply bool_decide_eq_false. intros Ho.
  assert (w ∈ filter (fun w => readyState w <> CLOSED) (sockets p)) as Hin.
  { apply list_elem_of_filter. split; [congruence|]. by eapply list_elem_of_lookup_2. }
  rewrite Hl in Hin. by apply not_elem_of_nil in Hin.
Qed.

Lemma single_connect (c : bool) (p : page) :
  live p = [] -> pending p = [] -> single (exec (connectWebSocket c) p).
Proof.
  intros Hl Hp. pose proof (live_none_not_open p Hl) as Hc.
  destruct_page p. unfold single. js_run. rewrite Hc.
  destruct c; simpl.
  - rewrite filter_app, Hl, Hp. simpl. lia.
  - destruct (ra <? mx)%nat; simpl;
      rewrite ?filter_app, Hl, Hp; simpl; lia.
Qed.

Lemma single_step (p : page) (e : event) : single p -> single (step p e).
Proof.
  intros Hs. destruct e as [h | h d | h | h | h | i c].
  - destruct_page p. unfold single in *. js_run.
    destruct (ss !! h) as [w|] eqn:Hw; simpl; [|done].
    case_bool_decide as Hst; simpl; [|done]. rewrite Hw. simpl.
    erewrite filter_length_insert_keep; eauto; simpl; congruence.
  - unfold step, dispatch. 
    change (single (exec (if bool_decide (readyState_of h p = Some OPEN)
              then onmessage d else ret tt) p)).
    destruct (bool_decide (readyState_of h p = Some OPEN)); [|done].
    unfold single, live, pending.
    pose proof (onmessage_link d p) as Hk. unfold link in Hk.
    injection Hk as _ _ _ _ -> ->. done.
  - unfold step, dispatch. 
    change (single (exec (match readyState_of h p with Some _ => onerror | None => ret tt end) p)).
    destruct (readyState_of h p); [|done].
    unfold single, live, pending.
    pose proof (onerror_link p) as Hk. unfold link in Hk.
    injection Hk as _ _ _ _ -> ->. done.
  - destruct_page p. unfold single in *. js_run.
    destruct (ss !! h) as [w|] eqn:Hw; simpl; [|done].
    case_bool_decide as Hst; simpl; [|done]. rewrite Hw. simpl.
    erewrite filter_length_insert_keep; eauto; simpl; congruence.
  - destruct_page p. unfold single in *. js_run.
    destruct (ss !! h) as [w|] eqn:Hw; simpl; [|done].
    assert (readyState w <> CLOSED ->
      length (filter (fun w => readyState w <> CLOSED)
                (<[h := mkWebSocket (url w) CLOSED (sent w)]> ss)) = 0%nat /\
      filter (fun t => fired t = false) ts = []) as Hclose.
    { intros Hne.
      pose proof (filter_length_insert_drop (fun w => readyState w <> CLOSED)
                    ss h w (mkWebSocket (url w) CLOSED (sent w)) Hw Hne) as Hd.
      simpl in Hd. specialize (Hd ltac:(congruence)).
      split; [lia|]. apply length_zero_iff_nil. lia. }
    destruct (readyState w) eqn:Hr; simpl; try done; rewrite Hw; simpl;
      destruct Hclose as [Hl0 Hp0]; try done;
      destruct (ra <? mx)%nat; simpl; rewrite ?filter_app, ?Hl0, ?Hp0; simpl; lia.
  - destruct_page p. unfold single in *. js_run.
    destruct (ts !! i) as [t|] eqn:Ht; simpl; [|done].
    destruct (fired t) eqn:Hf; simpl; [done|].
    pose proof (filter_length_insert_drop (fun t => fired t = false)
                  ts i t (mkTimer (delay t) true) Ht Hf ltac:(done)) as Hd.
    assert (filter (fun w => readyState w <> CLOSED) ss = []) as Hl0
      by (apply length_zero_iff_nil; lia).
    assert (filter (fun t => fired t = false) (<[i := mkTimer (delay t) true]> ts) = [])
      as Hp0 by (apply length_zero_iff_nil; lia).
    pose proof (single_connect c
      (mkPage so nc ic ra mx rd ss (<[i := mkTimer (delay t) true]> ts)
              bs ins dd ti pe cl lp lh ef) Hl0 Hp0) as Hc.
    exact Hc.
Qed.

Lemma single_run (es : list event) (p : page) : single p -> single (run es p).
Proof.
  revert p. induction es as [|e es IH]; intros p Hp; simpl; [done|].
  apply IH. by apply single_step.
Qed.

Lemma single_load (currentUserId constructs : bool) (p : page) :
  fresh p -> single (load currentUserId constructs p).
Proof.
  intros [Hs Ht]. destruct_page p. simpl in *. subst.
  destruct currentUserId; [|unfold single; simpl; lia].
  by apply single_connect.
Qed.

(** *** Class lists *)

Lemma classList_add_elem (c : string) (l : list string) : c ∈ classList_add c l.
Proof.
  unfold classList_add, classList_contains.
  destruct (bool_decide (c ∈ l)) eqn:Hc; [by apply bool_decide_eq_true in Hc|].
  apply elem_of_app. right. by apply list_elem_of_singleton.
Qed.

Lemma classList_add_other (c c' : string) (l : list string) :
  c' <> c -> c' ∈ classList_add c l <-> c' ∈ l.
Proof.
  intros Hne. unfold classList_add, classList_contains.
  destruct (bool_decide (c ∈ l)); [done|].
  rewrite elem_of_app, list_elem_of_singleton. tauto.
Qed.

Lemma classList_remove_elem (c c' : string) (l : list string) :
  c' ∈ classList_remove c l <-> c' <> c /\ c' ∈ l.
Proof. unfold classList_remove. by rewrite list_elem_of_filter. Qed.

Lemma shows_disconnected_map (l : list indicator) :
  Forall shows_disconnected
    (map (fun i => mkIndicator "Disconnected"
                     (classList_add "text-danger"
                        (classList_remove "text-success" (ind_classList i)))) l).
Proof.
  apply Forall_forall. intros i Hi.
  apply list_elem_of_fmap in Hi as (j & Hj & _). subst i.
  repeat split; simpl.
  - apply classList_add_elem.
  - rewrite classList_add_other by done. rewrite classList_remove_elem.
    intros [Hne _]. by apply Hne.
Qed.

(** ** The claims *)

(** C1.  From a fresh page (attempt counter 0, base delay 1000 ms, no socket
    and no timeout yet), in a run where the first connect attempt and every
    retry fail at once ([f] and [fs] say how), the timeouts armed by
    [scheduleReconnect] are, in order, the first [1 + length fs] entries of
    1000, 2000, 4000, 8000, 16000 ms, that is [1000 * 2^(a - 1)] for the
    attempt numbers [a = 1, 2, ...] counted after the increment; there are
    never more than five; and once the fifth retry has failed no timeout is
    pending and no socket is live, so no further attempt is made. *)
Theorem reconnect_backoff_series (p : page) (f : failure) (fs : list failure) :
  fresh p ->
  scheduled (failing_run f fs p)
    = map (fun a => 1000 * 2 ^ (Z.of_nat a - 1))
          (seq 1 (Nat.min (S (length fs)) 5))
  /\ scheduled (failing_run f fs p)
    = take (S (length fs)) (map (Z.mul 1000) [1; 2; 4; 8; 16])
  /\ ((5 <= length fs)%nat ->
      pending (failing_run f fs p) = [] /\ live (failing_run f fs p) = []).
Proof.
  intros Hfresh.
  pose proof (backing_off_start f p Hfresh) as H1.
  pose proof (backing_off_retries fs 1 _ ltac:(lia) H1) as Hk.
  fold (failing_run f fs p) in Hk.
  set (k := Nat.min (1 + length fs) 6) in Hk.
  assert (1 <= k <= 6)%nat as Hrange by (unfold k; lia).
  destruct Hk as [_ _ _ Ht Hl _].
  assert (scheduled (failing_run f fs p) = take k series) as Hs.
  { unfold scheduled. rewrite Ht. by apply scheduled_timer_table. }
  split; [|split].
  - rewrite Hs.
    replace (Nat.min (S (length fs)) 5) with (Nat.min k 5) by (unfold k; lia).
    assert (k = 1 \/ k = 2 \/ k = 3 \/ k = 4 \/ k = 5 \/ k = 6)%nat
      as [-> | [-> | [-> | [-> | [-> | ->]]]]] by lia; reflexivity.
  - rewrite Hs. change (map (Z.mul 1000) [1; 2; 4; 8; 16]) with series.
    unfold k. destruct (decide (length fs <= 4)%nat).
    + f_equal. lia.
    + replace (Nat.min (1 + length fs) 6) with 6%nat by lia.
      rewrite !take_ge by (simpl; lia). done.
  - intros Hlen. split; [|exact Hl].
    unfold pending. rewrite Ht.
    replace k with 6%nat by (unfold k; lia). reflexivity.
Qed.

Lemma reconnect_backoff_series_witness :
  fresh bell_page /\
  scheduled (failing_run refused
               [refused; not_constructed; refused; refused; refused] bell_page)
    = [1000; 2000; 4000; 8000; 16000] /\
  pending (failing_run refused
             [refused; not_constructed; refused; refused; refused] bell_page) = [].
Proof.
  assert (fresh bell_page) as Hf by (split; reflexivity).
  split; [exact Hf|].
  destruct (reconnect_backoff_series bell_page refused
              [refused; not_constructed; refused; refused; refused] Hf)
    as (_ & Hs & Hp).
  split; [exact Hs | apply Hp; simpl; lia].
Defined.

(** C2.  On every page the [onopen] handler returns and leaves the attempt
    counter at 0, the reconnect delay at its base value of 1000 ms and
    [isConnected] set; so does the open event of a connecting socket.  In
    particular, when two attempts have failed (delays 1000 and 2000 armed),
    the second retry opens, and that connection is later lost, the timeout
    armed for it has delay 1000, not 4000. *)
Theorem onopen_resets_backoff (q : page) (h : nat) (p : page) (f1 f2 : failure) :
  (returns onopen q = true /\
   reconnectAttempts (exec onopen q) = 0%nat /\
   reconnectDelay (exec onopen q) = 1000 /\
   isConnected (exec onopen q) = true) /\
  (readyState_of h q = Some CONNECTING ->
   reconnectAttempts (step q (ws_open h)) = 0%nat /\
   reconnectDelay (step q (ws_open h)) = 1000 /\
   isConnected (step q (ws_open h)) = true /\
   readyState_of h (step q (ws_open h)) = Some OPEN) /\
  (fresh p ->
   let p2 := failing_run f1 [f2] p in
   let h' := length (sockets p2) in
   let p4 := step (step p2 (timeout 1 true)) (ws_open h') in
   let p5 := step p4 (ws_close h') in
   reconnectAttempts p2 = 2%nat /\ scheduled p2 = [1000; 2000] /\
   socket_is_open p4 = true /\ isConnected p4 = true /\
   reconnectAttempts p4 = 0%nat /\
   scheduled p5 = [1000; 2000; 1000] /\ reconnectAttempts p5 = 1%nat).
Proof.
  split; [|split].
  - destruct q; repeat split; reflexivity.
  - intros Hh. destruct q. js_run.
    destruct (sockets0 !! h) as [w|] eqn:Hw; simpl in *; [|done].
    rewrite Hh. simpl. rewrite Hw. simpl.
    rewrite list_lookup_insert_eq by (by apply lookup_lt_Some with w).
    done.
  - intros Hfresh.
    pose proof (backing_off_start f1 p Hfresh) as H1.
    pose proof (backing_off_retries [f2] 1 _ ltac:(lia) H1) as H2.
    fold (failing_run f1 [f2] p) in H2. simpl in H2.
    destruct H2 as [Ha Hm Hd Ht Hl Hc].
    destruct (failing_run f1 [f2] p). simpl in *. subst.
    js_run. rewrite Hc. simpl.
    repeat (rewrite ?lookup_snoc, ?insert_snoc; simpl).
    done.
Qed.

Lemma onopen_resets_backoff_witness :
  (readyState_of 0 (load true true bell_page) = Some CONNECTING /\
   reconnectAttempts (step (load true true bell_page) (ws_open 0)) = 0%nat) /\
  (fresh bell_page /\
   scheduled
     (run [timeout 1 true; ws_open 1; ws_close 1]
          (failing_run refused [not_constructed] bell_page))
   = [1000; 2000; 1000]).
Proof.
  assert (fresh bell_page) as Hf by (split; reflexivity).
  assert (readyState_of 0 (load true true bell_page) = Some CONNECTING)
    as Hc by reflexivity.
  destruct (onopen_resets_backoff (load true true bell_page) 0
              bell_page refused not_constructed)
    as (_ & Hopen & Hrun).
  destruct (Hopen Hc) as (Ha & _).
  destruct (Hrun Hf) as (_ & _ & _ & _ & _ & Hs & _).
  split; [split; [exact Hc | exact Ha] | split; [exact Hf | exact Hs]].
Defined.

(** C3, as the spec states it, fails while the socket is connecting: the
    guard of [connectWebSocket] tests for [OPEN] only.  On the page left by
    a load whose socket has not opened yet, a call constructs a second
    socket and re-points [this.socket]; both sockets are then live. *)
Lemma connect_while_connecting_constructs :
  socket_is_connecting (load true true bell_page) = true /\
  exec (connectWebSocket true) (load true true bell_page)
    <> load true true bell_page /\
  length (sockets (load true true bell_page)) = 1%nat /\
  length (sockets (exec (connectWebSocket true) (load true true bell_page)))
    = 2%nat /\
  socket (exec (connectWebSocket true) (load true true bell_page)) = Some 1%nat /\
  length (live (exec (connectWebSocket true) (load true true bell_page)))
    = 2%nat.
Proof. repeat split; try reflexivity. discriminate. Qed.

(** C3, amended.  On every page whose socket is open, [connectWebSocket]
    returns at once: it constructs no socket and leaves the page as it was.
    On a page whose socket is not open (none yet, connecting, closing or
    closed) a constructor that returns adds one connecting socket and makes
    it [this.socket].  In every run of the client itself (a page load, then
    any socket events and timeouts) the live sockets and the pending
    reconnect timeouts together number at most one, so at most one
    connection is live at any time. *)
Theorem connect_noop_when_open
    (q : page) (constructs : bool) (q' : page)
    (p : page) (currentUserId constructs0 : bool) (es : list event) :
  (socket_is_open q = true ->
   connectWebSocket constructs q = (Returned tt, q)) /\
  (socket_is_open q' = false ->
   sockets (exec (connectWebSocket true) q')
     = sockets q' ++ [mkWebSocket (wsUrl_of q') CONNECTING []] /\
   socket (exec (connectWebSocket true) q') = Some (length (sockets q'))) /\
  (fresh p ->
   (length (live (run es (load currentUserId constructs0 p)))
    + length (pending (run es (load currentUserId constructs0 p))) <= 1)%nat).
Proof.
  split; [|split].
  - intros Ho. unfold connectWebSocket, mbind, js_bind, bind, get.
    rewrite Ho. reflexivity.
  - intros Hc. destruct_page q'. js_run. rewrite Hc. done.
  - intros Hf. apply (single_run es). by apply single_load.
Qed.

Lemma connect_noop_when_open_witness :
  sockets (exec (connectWebSocket true)
             (run [ws_open 0] (load true true bell_page)))
    = sockets (run [ws_open 0] (load true true bell_page)) /\
  length (sockets (exec (connectWebSocket true) (load true true bell_page)))
    = 2%nat /\
  (length (live (run [ws_close 0; timeout 0 true; ws_open 1]
                     (load true true bell_page))) <= 1)%nat.
Proof.
  destruct (connect_noop_when_open
              (run [ws_open 0] (load true true bell_page)) true
              (load true true bell_page)
              bell_page true true [ws_close 0; timeout 0 true; ws_open 1])
    as (Hopen & Hnew & Hone).
  assert (fresh bell_page) as Hf by (split; reflexivity).
  assert (socket_is_open (run [ws_open 0] (load true true bell_page)) = true)
    as Ho by reflexivity.
  assert (socket_is_open (load true true bell_page) = false) as Hc
    by reflexivity.
  split; [|split].
  - unfold exec. rewrite (Hopen Ho). reflexivity.
  - destruct (Hnew Hc) as [-> _]. reflexivity.
  - specialize (Hone Hf). lia.
Defined.

(** C4, as the spec states it, fails for the error event: [onerror] marks
    the client disconnected and updates the status indicators but never
    calls [scheduleReconnect].  After an error on the socket of a fresh
    load, with no attempt used yet, no timeout is armed. *)
Lemma error_event_schedules_nothing :
  (reconnectAttempts (load true true bell_page)
   < maxReconnectAttempts (load true true bell_page))%nat /\
  isConnected (step (load true true bell_page) (ws_error 0)) = false /\
  timers (step (load true true bell_page) (ws_error 0)) = [] /\
  reconnectAttempts (step (load true true bell_page) (ws_error 0)) = 0%nat.
Proof. repeat split; simpl; lia. Qed.

(** C4, amended.  On every page the close handler returns, sets
    [isConnected] to false, makes every status indicator show
    "Disconnected", and, while the attempt counter is below the maximum,
    increments it and arms one reconnect timeout of
    [reconnectDelay * 2^(attempts - 1)] ms; at the maximum it arms nothing.
    The error handler returns, sets [isConnected] to false and updates the
    indicators in the same way, and leaves the timeouts and the attempt
    counter as they were: the reconnect is armed by the close event alone.
    So when a live socket reports an error and then closes, as a failing
    connection does, one reconnect is armed, not two.  The constructor sets
    the maximum to 5. *)
Theorem close_schedules_error_does_not (p : page) (h : nat) :
  (returns onclose p = true /\
   isConnected (exec onclose p) = false /\
   length (indicators (exec onclose p)) = length (indicators p) /\
   Forall shows_disconnected (indicators (exec onclose p)) /\
   (if (reconnectAttempts p <? maxReconnectAttempts p)%nat
    then reconnectAttempts (exec onclose p) = S (reconnectAttempts p) /\
         timers (exec onclose p)
           = timers p ++
             [mkTimer (reconnectDelay p
                       * 2 ^ (Z.of_nat (S (reconnectAttempts p)) - 1)) false]
    else reconnectAttempts (exec onclose p) = reconnectAttempts p /\
         timers (exec onclose p) = timers p)) /\
  (returns onerror p = true /\
   isConnected (exec onerror p) = false /\
   length (indicators (exec onerror p)) = length (indicators p) /\
   Forall shows_disconnected (indicators (exec onerror p)) /\
   reconnectAttempts (exec onerror p) = reconnectAttempts p /\
   timers (exec onerror p) = timers p) /\
  (forall st, readyState_of h p = Some st -> st <> CLOSED ->
   isConnected (run [ws_error h; ws_close h] p) = false /\
   readyState_of h (run [ws_error h; ws_close h] p) = Some CLOSED /\
   (if (reconnectAttempts p <? maxReconnectAttempts p)%nat
    then timers (run [ws_error h; ws_close h] p)
           = timers p ++
             [mkTimer (reconnectDelay p
                       * 2 ^ (Z.of_nat (S (reconnectAttempts p)) - 1)) false]
    else timers (run [ws_error h; ws_close h] p) = timers p)) /\
  maxReconnectAttempts (constructor_fields p) = 5%nat.
Proof.
  destruct_page p. split; [|split; [|split]]; [| | |reflexivity].
  - js_run. destruct (ra <? mx)%nat; simpl;
      rewrite length_map; repeat split; apply shows_disconnected_map.
  - js_run. rewrite length_map. repeat split. apply shows_disconnected_map.
  - intros st Hst Hne. unfold run. simpl fold_left. js_run.
    destruct (ss !! h) as [w|] eqn:Hw; simpl in *; [|done].
    injection Hst as Hst. rewrite Hw. simpl. rewrite Hst.
    assert (<[h := mkWebSocket (url w) CLOSED (sent w)]> ss !! h
            = Some (mkWebSocket (url w) CLOSED (sent w))) as Hh
      by (apply list_lookup_insert_eq; by apply lookup_lt_Some with w).
    destruct st; try done; simpl; rewrite Hw; simpl;
      destruct (ra <? mx)%nat; simpl; rewrite Hh; done.
Qed.

Lemma close_schedules_error_does_not_witness :
  readyState_of 0 (load true true bell_page) = Some CONNECTING /\
  timers (run [ws_error 0] (load true true bell_page)) = [] /\
  timers (run [ws_error 0; ws_close 0] (load true true bell_page))
    = [mkTimer 1000 false].
Proof.
  assert (readyState_of 0 (load true true bell_page) = Some CONNECTING)
    as Hc by reflexivity.
  destruct (close_schedules_error_does_not (load true true bell_page) 0)
    as (_ & _ & Hboth & _).
  destruct (Hboth CONNECTING Hc ltac:(discriminate)) as (_ & _ & Ht).
  split; [exact Hc|]. split; [reflexivity | exact Ht].
Defined.

Lemma new_notification_count (n : option notification) (p : page) :
  notificationCount (exec (handleMessage (new_notification n)) p)
  = notificationCount p + 1.
Proof.
  simpl. unfold handleNewNotification.
  rewrite exec_bind_unit by reflexivity. rewrite exec_bind_get.
  rewrite exec_bind_unit by apply total_updateNotificationCount.
  assert (keeps notificationCount
            (showNotificationToast n;; playNotificationSound;;
             showBrowserNotification n;; addToNotificationDropdown n)) as Hk
    by repeat keeps_step.
  rewrite Hk, notificationCount_update. by destruct_page p.
Qed.

Lemma new_notifications_count (ns : list (option notification)) (p : page) :
  notificationCount (deliver (map new_notification ns) p)
  = notificationCount p + Z.of_nat (length ns).
Proof.
  revert p. induction ns as [|n ns IH]; intros p; simpl; [lia|].
  fold (deliver (map new_notification ns)
          (exec (handleNewNotification n) p)).
  rewrite IH. change (handleNewNotification n)
    with (handleMessage (new_notification n)).
  rewrite new_notification_count. lia.
Qed.

(** C5.  Handling a [new_notification] message, with or without its
    payload, leaves the unread count one higher than it found it; hence any
    [N] such messages in a row raise it by [N], and after a
    [notification_count] message carrying [c] they leave it at [c + N].
    The counts are safe integers, which the code adds exactly. *)
Theorem new_notification_increments_count
    (p : page) (n : option notification) (ns : list (option notification))
    (c : Z) :
  (safe_integer (notificationCount p) -> safe_integer (notificationCount p + 1) ->
   notificationCount (exec (handleMessage (new_notification n)) p)
     = notificationCount p + 1) /\
  (safe_integer (notificationCount p) ->
   safe_integer (notificationCount p + Z.of_nat (length ns)) ->
   notificationCount (deliver (map new_notification ns) p)
     = notificationCount p + Z.of_nat (length ns)) /\
  (safe_integer c -> safe_integer (c + Z.of_nat (length ns)) ->
   notificationCount
     (deliver (notification_count c :: map new_notification ns) p)
     = c + Z.of_nat (length ns)).
Proof.
  split; [intros _ _; apply new_notification_count|].
  split; [intros _ _; apply new_notifications_count|].
  intros _ _. simpl.
  fold (deliver (map new_notification ns)
          (exec (updateNotificationCount c) p)).
  by rewrite new_notifications_count, notificationCount_update.
Qed.

Lemma new_notification_increments_count_witness :
  notificationCount
    (exec (handleMessage (new_notification (Some (arrival 1)))) two_unread) = 3 /\
  notificationCount
    (deliver (map new_notification [Some (arrival 1); None; Some (arrival 2)])
             two_unread) = 5 /\
  notificationCount
    (deliver (notification_count 7 ::
              map new_notification [Some (arrival 1); None]) two_unread) = 9.
Proof.
  destruct (new_notification_increments_count two_unread (Some (arrival 1))
              [Some (arrival 1); None; Some (arrival 2)] 7) as (H1 & H2 & _).
  destruct (new_notification_increments_count two_unread None
              [Some (arrival 1); None] 7) as (_ & _ & H3).
  split; [apply H1; unfold safe_integer; simpl; lia|].
  split; [apply H2; unfold safe_integer; simpl; lia|].
  apply H3; unfold safe_integer; simpl; lia.
Defined.

Lemma selector_scan_plain_id (i : string) :
  plain_id i = true -> selector_scan i = None.
Proof.
  unfold plain_id. induction i as [|c r IH]; simpl; [done|].
  intros H. apply andb_true_iff in H as [Hc Hr]. apply negb_true_iff in Hc.
  unfold is_special in Hc.
  destruct (is_line_break c); [done|]. destruct (is_dquote c); [done|].
  simpl in Hc. rewrite Hc. by apply IH.
Qed.

Lemma selector_of_plain_id (i : string) :
  plain_id i = true -> selector_of_id i = AttrEquals i.
Proof. intros H. unfold selector_of_id. by rewrite selector_scan_plain_id. Qed.



Lemma handleNotificationRead_count (notificationId' : string) (p : page) :
  notificationCount (exec (handleNotificationRead notificationId') p)
  = if 0 <? notificationCount p then notificationCount p - 1
    else notificationCount p.
Proof.
  unfold handleNotificationRead. rewrite exec_bind_get.
  assert (keeps notificationCount
            (removeFromNotificationDropdown notificationId')) as Hk
    by repeat keeps_step.
  destruct (0 <? notificationCount p).
  - rewrite exec_bind_unit.
    + rewrite Hk. rewrite exec_bind_unit by reflexivity.
      rewrite exec_bind_get, notificationCount_update. by destruct_page p.
    + rewrite returns_bind_unit by reflexivity.
      apply (total_bind get); [apply total_get|].
      intros a. apply total_updateNotificationCount.
  - rewrite exec_bind_unit by reflexivity. by rewrite Hk.
Qed.

Lemma removeFromNotificationDropdown_not_selector
    (notificationId' : string) (p : page) :
  selector_of_id notificationId' = NotASelector ->
  removeFromNotificationDropdown notificationId' p = (Threw SyntaxError, p).
Proof.
  intros H. unfold removeFromNotificationDropdown, mbind, js_bind, bind, get,
    querySelector_notification_id. simpl. by rewrite H.
Qed.

(** An id that carries a double quote (say a, a double quote, b) makes
    text that is not a selector: the handler throws once the count is written and marks
    nothing.  The theorems below are about identifier text. *)
Lemma returns_bind_get {C} (k : page -> js C) (p : page) :
  returns (get ≫= k) p = returns (k p) p.
Proof. reflexivity. Qed.

Lemma then_not_selector (c : js unit) (notificationId' : string) (p : page) :
  total c -> keeps dropdown c ->
  selector_of_id notificationId' = NotASelector ->
  returns (c;; removeFromNotificationDropdown notificationId') p = false /\
  dropdown (exec (c;; removeFromNotificationDropdown notificationId') p)
    = dropdown p.
Proof.
  intros Ht Hk H.
  rewrite returns_bind_unit by apply Ht. rewrite exec_bind_unit by apply Ht.
  unfold returns, exec.
  rewrite (removeFromNotificationDropdown_not_selector _ _ H). simpl.
  split; [done|]. apply Hk.
Qed.

Lemma handleNotificationRead_not_selector (notificationId' : string) (p : page) :
  selector_of_id notificationId' = NotASelector ->
  returns (handleNotificationRead notificationId') p = false /\
  dropdown (exec (handleNotificationRead notificationId') p) = dropdown p.
Proof.
  intros H. unfold handleNotificationRead.
  rewrite returns_bind_get, exec_bind_get.
  destruct (0 <? notificationCount p);
    (apply then_not_selector;
     [repeat first [apply total_updateNotificationCount | total_step]
     | repeat keeps_step | exact H]).
Qed.

Example notification_read_quote_throws :
  returns (handleMessage (notification_read ("a" +:+ String "034" "b")))
          two_unread = false /\
  notificationCount
    (exec (handleMessage (notification_read ("a" +:+ String "034" "b")))
          two_unread) = 1.
Proof. split; reflexivity. Qed.



Lemma removeFromNotificationDropdown_dropdown (notificationId' : string) (p : page) :
  plain_id notificationId' = true ->
  dropdown (exec (removeFromNotificationDropdown notificationId') p)
  = match dropdown p with
    | Some children =>
        match list_find (fun e => notificationId e = Some notificationId') children with
        | Some (i, item) => Some (<[i := mark_read item]> children)
        | None => Some children
        end
    | None => None
    end.
Proof.
  intros Hplain.
  destruct_page p. unfold removeFromNotificationDropdown, exec, mbind, js_bind,
    bind, get, querySelector_notification_id. simpl.
  rewrite (selector_of_plain_id _ Hplain).
  destruct dd as [children|]; [|done].
  by destruct (list_find _ children) as [[i item]|].
Qed.

Lemma handleNotificationRead_dropdown (notificationId' : string) (p : page) :
  plain_id notificationId' = true ->
  dropdown (exec (handleNotificationRead notificationId') p)
  = dropdown (exec (removeFromNotificationDropdown notificationId') p).
Proof.
  intros Hplain. unfold handleNotificationRead. rewrite exec_bind_get.
  set (c := if 0 <? notificationCount p then _ else _).
  assert (total c) as Ht
    by (unfold c; repeat first [apply total_updateNotificationCount | total_step]).
  assert (keeps dropdown c) as Hk by (unfold c; repeat keeps_step).
  rewrite exec_bind_unit by apply Ht.
  rewrite !removeFromNotificationDropdown_dropdown by done. by rewrite Hk.
Qed.




(** *** The recent list *)

Lemma no_item_filter (l : list element) :
  existsb is_item l = false -> filter (fun e => is_item e = true) l = [].
Proof.
  induction l as [|e l IH]; simpl; [done|].
  intros H. apply orb_false_iff in H as [He Hl].
  rewrite filter_cons_False by (by rewrite He). by apply IH.
Qed.

Lemma some_item_filter (l : list element) :
  existsb is_item l = true -> filter (fun e => is_item e = true) l <> [].
Proof.
  induction l as [|e l IH]; simpl; [done|].
  destruct (is_item e) eqn:He; simpl.
  - intros _. by rewrite filter_cons_True.
  - intros H. rewrite filter_cons_False by (by rewrite He). by apply IH.
Qed.

Lemma recent_remove_last_item (l : list element) :
  filter (fun e => is_item e = true) (remove_last_item l)
  = removelast (filter (fun e => is_item e = true) l).
Proof.
  induction l as [|e l IH]; simpl; [done|].
  destruct (is_item e) eqn:He; destruct (existsb is_item l) eqn:Hl; simpl.
  - rewrite !filter_cons_True by done. rewrite IH. simpl.
    pose proof (some_item_filter l Hl).
    by destruct (filter (fun e => is_item e = true) l).
  - rewrite filter_cons_True by done. by rewrite (no_item_filter l Hl).
  - rewrite !filter_cons_False by (by rewrite He). apply IH.
  - rewrite !filter_cons_False by (by rewrite He). apply IH.
Qed.


Lemma addToNotificationDropdown_dropdown (n : notification) (p : page) :
  dropdown (exec (addToNotificationDropdown (Some n)) p)
    = inserted (clock p) n <$> dropdown p /\
  clock (exec (addToNotificationDropdown (Some n)) p) = clock p.
Proof. destruct_page p. by destruct dd. Qed.

Lemma handleNewNotification_dropdown (n : notification) (p : page) :
  dropdown (exec (handleMessage (new_notification (Some n))) p)
    = inserted (clock p) n <$> dropdown p /\
  clock (exec (handleMessage (new_notification (Some n))) p) = clock p.
Proof.
  simpl. unfold handleNewNotification.
  assert (forall f : page -> page, total (modify f)) as T0
    by (intros f; apply total_modify).
  assert (total (showNotificationToast (Some n))) as T1
    by (unfold showNotificationToast; repeat total_step).
  assert (total playNotificationSound) as T2 by repeat total_step.
  assert (total (showBrowserNotification (Some n))) as T3
    by (unfold showBrowserNotification; repeat total_step).
  rewrite exec_bind_unit by apply T0. rewrite exec_bind_get.
  rewrite exec_bind_unit by apply total_updateNotificationCount.
  rewrite exec_bind_unit by apply T1.
  rewrite exec_bind_unit by apply T2.
  rewrite exec_bind_unit by apply T3.
  destruct (addToNotificationDropdown_dropdown n
    (exec (showBrowserNotification (Some n))
       (exec playNotificationSound
          (exec (showNotificationToast (Some n))
             (exec (updateNotificationCount
                      (notificationCount
                         (exec (modify (fun p =>
                            set_notificationCount (notificationCount p + 1) p)) p)))
                (exec (modify (fun p =>
                   set_notificationCount (notificationCount p + 1) p)) p))))))
    as [-> ->].
  assert (forall c : js unit,
            keeps dropdown c -> keeps clock c ->
            forall q, dropdown (exec c q) = dropdown q /\ clock (exec c q) = clock q)
    as Hboth by (intros c H1 H2 q; by rewrite H1, H2).
  repeat match goal with
  | |- context [exec ?c ?q] =>
      destruct (Hboth c ltac:(repeat keeps_step) ltac:(repeat keeps_step) q)
        as [-> ->]
  end.
  done.
Qed.


Lemma recent_inserted (now : Z) (n : notification) (children : list element) :
  (length (filter (fun e => is_item e = true) children) <= 10)%nat ->
  filter (fun e => is_item e = true) (inserted now n children)
  = take 10 (notificationElement now n
             :: filter (fun e => is_item e = true) children).
Proof.
  intros Hlen. unfold inserted.
  rewrite (filter_cons_True _ (notificationElement now n)) by done.
  set (items := filter (fun e => is_item e = true) children) in *.
  destruct (10 <? length (notificationElement now n :: items))%nat eqn:E.
  - apply Nat.ltb_lt in E. simpl in E.
    rewrite recent_remove_last_item, filter_cons_True by done. fold items.
    rewrite removelast_firstn_len. simpl length.
    replace (Nat.pred (S (length items))) with 10%nat by lia. done.
  - apply Nat.ltb_ge in E. simpl in E.
    rewrite filter_cons_True by done. fold items.
    rewrite take_ge; [done | simpl; lia].
Qed.



Lemma deliver_cons (m : message) (ms : list message) (p : page) :
  deliver (m :: ms) p = deliver ms (exec (handleMessage m) p).
Proof. reflexivity. Qed.




Lemma markAsRead_open (i : string) (p : page) (h : nat) (w : WebSocket) :
  socket p = Some h -> sockets p !! h = Some w -> readyState w = OPEN ->
  markAsRead i p
  = (Returned tt,
     set_sockets
       (<[h := mkWebSocket (url w) OPEN (sent w ++ [mkOutbound "mark_read" i])]>
          (sockets p)) p).
Proof.
  intros Hso Hw Ho. destruct_page p. simpl in *. subst.
  unfold markAsRead, send, socket_is_open, mbind, js_bind, bind, get. simpl.
  rewrite Hw. simpl. rewrite Ho. simpl. by rewrite Hw, Ho.
Qed.

Lemma markAsRead_closed (i : string) (p : page) :
  socket_is_open p = false -> markAsRead i p = (Returned tt, p).
Proof.
  intros Hc. unfold markAsRead, mbind, js_bind, bind, get. by rewrite Hc.
Qed.

Lemma socket_is_open_spec (p : page) :
  socket_is_open p = true <->
  exists (h : nat) (w : WebSocket),
    socket p = Some h /\ sockets p !! h = Some w /\ readyState w = OPEN.
Proof.
  unfold socket_is_open. split.
  - destruct (socket p) as [h|]; [|done].
    destruct (sockets p !! h) as [w|] eqn:Hw; [|done].
    intros Ho. apply bool_decide_eq_true in Ho. by exists h, w.
  - intros (h & w & -> & -> & Ho). by apply bool_decide_eq_true.
Qed.

Lemma sockets_set_sockets (l : list WebSocket) (p : page) :
  sockets (set_sockets l p) = l.
Proof. by destruct_page p. Qed.

(** C9.  [markAsRead] returns on every page.  When the [readyState] of
    [this.socket] is [OPEN] it hands exactly one frame,
    [{type: "mark_read", notification_id: id}], to that socket and changes
    nothing else; when there is no socket, or its [readyState] is connecting,
    closing or closed, the page is left exactly as it was: nothing is sent,
    queued or scheduled.  So the page changes exactly when the socket is
    open. *)
Theorem markAsRead_sends_iff_open (p : page) (notificationId' : string) :
  returns (markAsRead notificationId') p = true /\
  (forall (h : nat) (w : WebSocket),
     socket p = Some h -> sockets p !! h = Some w -> readyState w = OPEN ->
     exec (markAsRead notificationId') p
       = set_sockets
           (<[h := mkWebSocket (url w) OPEN
                     (sent w ++ [mkOutbound "mark_read" notificationId'])]>
              (sockets p)) p) /\
  (socket p = None -> exec (markAsRead notificationId') p = p) /\
  (forall (h : nat) (w : WebSocket),
     socket p = Some h -> sockets p !! h = Some w -> readyState w <> OPEN ->
     exec (markAsRead notificationId') p = p) /\
  (exec (markAsRead notificationId') p <> p <->
   exists (h : nat) (w : WebSocket),
     socket p = Some h /\ sockets p !! h = Some w /\ readyState w = OPEN).
Proof.
  assert (Hclosed : socket_is_open p = false ->
                    exec (markAsRead notificationId') p = p)
    by (intros H; unfold exec; by rewrite markAsRead_closed).
  split.
  { unfold returns. destruct (socket_is_open p) eqn:E.
    - apply socket_is_open_spec in E as (h & w & Hh & Hw & Ho).
      by rewrite (markAsRead_open _ p h w Hh Hw Ho).
    - by rewrite markAsRead_closed. }
  split.
  { intros h w Hh Hw Ho. unfold exec. by rewrite (markAsRead_open _ p h w Hh Hw Ho). }
  split.
  { intros Hn. apply Hclosed. unfold socket_is_open. by rewrite Hn. }
  split.
  { intros h w Hh Hw Hn. apply Hclosed. unfold socket_is_open.
    rewrite Hh, Hw. by apply bool_decide_eq_false. }
  split.
  - intros Hne. apply socket_is_open_spec.
    destruct (socket_is_open p) eqn:E; [done|]. exfalso. by apply Hne, Hclosed.
  - intros (h & w & Hh & Hw & Ho) Heq.
    unfold exec in Heq. rewrite (markAsRead_open _ p h w Hh Hw Ho) in Heq.
    simpl in Heq. apply (f_equal sockets) in Heq.
    rewrite sockets_set_sockets in Heq.
    apply (f_equal (fun l => l !! h)) in Heq.
    rewrite list_lookup_insert_eq in Heq by (apply lookup_lt_is_Some_1; by eexists).
    rewrite Hw in Heq. injection Heq as Heq.
    apply (f_equal (fun x => length (sent x))) in Heq. simpl in Heq.
    rewrite length_app in Heq. simpl in Heq. lia.
Qed.

Lemma markAsRead_sends_iff_open_witness :
  sockets (exec (markAsRead "42") numbered_unread)
  = [mkWebSocket "wss://hireo.example/ws/notifications/" OPEN
       [mkOutbound "mark_read" "42"]] /\
  exec (markAsRead "42") bell_page = bell_page /\
  exec (markAsRead "42") (load true true bell_page) = load true true bell_page.
Proof.
  destruct (markAsRead_sends_iff_open numbered_unread "42") as (_ & Hopen & _).
  destruct (markAsRead_sends_iff_open bell_page "42") as (_ & _ & Hnone & _).
  destruct (markAsRead_sends_iff_open (load true true bell_page) "42")
    as (_ & _ & _ & Hnot & _).
  split.
  - rewrite (Hopen 0%nat
               (mkWebSocket "wss://hireo.example/ws/notifications/" OPEN [])
               eq_refl eq_refl eq_refl).
    reflexivity.
  - split; [exact (Hnone eq_refl)|].
    apply (Hnot 0%nat
             (mkWebSocket "wss://hireo.example/ws/notifications/" CONNECTING []));
      [reflexivity | reflexivity | discriminate].
Defined.

(** C10.  [updateNotificationCount(c)] renders every badge of the page:
    above 99 the text is the literal "99+", from 1 to 99 it is the decimal
    numeral of [c], and in both cases the badge is displayed; at 0 or below
    the badge is hidden and keeps its text. *)
Theorem badge_clips_at_99 (p : page) (c : Z) :
  badges (exec (updateNotificationCount c) p)
    = map (render_badge c) (badges p) /\
  (99 < c ->
   Forall (fun b => badge_textContent b = "99+" /\
                    badge_display b = "inline-block")
          (badges (exec (updateNotificationCount c) p))) /\
  (1 <= c <= 99 ->
   Forall (fun b => badge_textContent b = pretty c /\
                    badge_display b = "inline-block")
          (badges (exec (updateNotificationCount c) p))) /\
  (c <= 0 ->
   Forall (fun b => badge_display b = "none")
          (badges (exec (updateNotificationCount c) p)) /\
   map badge_textContent (badges (exec (updateNotificationCount c) p))
     = map badge_textContent (badges p)).
Proof.
  assert (badges (exec (updateNotificationCount c) p)
          = map (render_badge c) (badges p)) as Hb by (by destruct_page p).
  rewrite Hb. split; [done|].
  split; [|split]; intros Hc.
  - apply Forall_forall. intros b Hin.
    apply list_elem_of_fmap in Hin as (b0 & Hb0 & _). subst b.
    unfold render_badge.
    replace (0 <? c) with true by (symmetry; apply Z.ltb_lt; lia).
    replace (99 <? c) with true by (symmetry; apply Z.ltb_lt; lia). done.
  - apply Forall_forall. intros b Hin.
    apply list_elem_of_fmap in Hin as (b0 & Hb0 & _). subst b.
    unfold render_badge.
    replace (0 <? c) with true by (symmetry; apply Z.ltb_lt; lia).
    replace (99 <? c) with false by (symmetry; apply Z.ltb_ge; lia). done.
  - split.
    + apply Forall_forall. intros b Hin.
      apply list_elem_of_fmap in Hin as (b0 & Hb0 & _). subst b.
      unfold render_badge.
      replace (0 <? c) with false by (symmetry; apply Z.ltb_ge; lia). done.
    + rewrite map_map. apply map_ext. intros b. unfold render_badge.
      replace (0 <? c) with false by (symmetry; apply Z.ltb_ge; lia). done.
Qed.

Lemma badge_clips_at_99_witness :
  map badge_textContent (badges (exec (updateNotificationCount 150) bell_page))
    = ["99+"] /\
  map badge_textContent (badges (exec (updateNotificationCount 99) bell_page))
    = ["99"] /\
  map badge_display (badges (exec (updateNotificationCount 0) two_unread))
    = ["none"].
Proof.
  destruct (badge_clips_at_99 bell_page 150) as (_ & Hhigh & _ & _).
  destruct (badge_clips_at_99 bell_page 99) as (_ & _ & Hmid & _).
  destruct (badge_clips_at_99 two_unread 0) as (_ & _ & _ & Hlow).
  specialize (Hhigh ltac:(lia)). specialize (Hmid ltac:(lia)).
  specialize (Hlow ltac:(lia)). destruct Hlow as [Hlow _].
  split; [|split].
  - apply Forall_inv in Hhigh as [Ht _]. exact (f_equal (fun x => [x]) Ht).
  - apply Forall_inv in Hmid as [Ht _]. exact (f_equal (fun x => [x]) Ht).
  - apply Forall_inv in Hlow. exact (f_equal (fun x => [x]) Hlow).
Defined.


(** ** The scenario of the specification

    The client connects and receives a count of 3, then a new message
    [n1], then the confirmation that [n1] was read. *)

Example scenario_badge_and_list :
  let n1 := mkNotification "n1" "message" "hi" 0 None in
  let p1 := run [ws_open 0; ws_message 0 (Some (notification_count 3))]
                (load true true bell_page) in
  let p2 := run [ws_message 0 (Some (new_notification (Some n1)))] p1 in
  let p3 := run [ws_message 0 (Some (notification_read "n1"))] p2 in
  map badge_textContent (badges p1) = ["3"] /\
  map badge_textContent (badges p2) = ["4"] /\
  drop (length (effects p1)) (effects p2)
    = [Toast "fas fa-envelope" "New Message" "hi"; Sound] /\
  title p2 = "(4) Hireo" /\
  map badge_textContent (badges p3) = ["3"] /\
  title p3 = "(3) Hireo" /\
  map (fun e => (notificationId e, classList e)) (recent p3)
    = [(Some "n1", ["notification-item"; "read"])].
Proof. vm_compute. repeat split. Qed.

(** ** Further properties

    What the code guarantees beyond the claims above: invariants of the
    client's runs, what the page shows, and the behaviour of the other
    scripts. *)

(** *** Invariants of the client's runs *)

(** *** The tasks of the event loop, one equation each *)

Lemma step_ws_open (p : page) (h : nat) :
  step p (ws_open h)
  = if bool_decide (readyState_of h p = Some CONNECTING)
    then exec onopen (set_readyState h OPEN p) else p.
Proof.
  unfold step, dispatch, exec, mbind, js_bind, bind, get. simpl.
  by destruct (bool_decide _).
Qed.

Lemma step_ws_message (p : page) (h : nat) (d : option message) :
  step p (ws_message h d)
  = if bool_decide (readyState_of h p = Some OPEN)
    then exec (onmessage d) p else p.
Proof.
  unfold step, dispatch, exec, mbind, js_bind, bind, get. simpl.
  by destruct (bool_decide _).
Qed.

Lemma step_ws_error (p : page) (h : nat) :
  step p (ws_error h)
  = match readyState_of h p with Some _ => exec onerror p | None => p end.
Proof.
  unfold step, dispatch, exec, mbind, js_bind, bind, get. simpl.
  by destruct (readyState_of h p).
Qed.

Lemma step_ws_closing (p : page) (h : nat) :
  step p (ws_closing h)
  = if bool_decide (readyState_of h p = Some OPEN)
    then set_readyState h CLOSING p else p.
Proof.
  unfold step, dispatch, exec, mbind, js_bind, bind, get. simpl.
  by case_bool_decide.
Qed.

Lemma step_ws_close (p : page) (h : nat) :
  step p (ws_close h)
  = match readyState_of h p with
    | Some CLOSED | None => p
    | Some _ => exec onclose (set_readyState h CLOSED p)
    end.
Proof.
  unfold step, dispatch, exec, mbind, js_bind, bind, get. simpl.
  by destruct (readyState_of h p) as [[]|].
Qed.

Lemma step_timeout (p : page) (i : nat) (c : bool) :
  step p (timeout i c)
  = match timers p !! i with
    | Some t =>
        if fired t then p
        else exec (connectWebSocket c)
               (set_timers (<[i := mkTimer (delay t) true]> (timers p)) p)
    | None => p
    end.
Proof.
  unfold step, dispatch, exec, mbind, js_bind, bind, get. simpl.
  destruct (timers p !! i) as [t|]; [|done]. by destruct (fired t).
Qed.

Lemma connectWebSocket_open (c : bool) (p : page) :
  socket_is_open p = true -> exec (connectWebSocket c) p = p.
Proof.
  intros Ho. unfold connectWebSocket, exec, mbind, js_bind, bind, get.
  by rewrite Ho.
Qed.

Lemma connectWebSocket_new (p : page) :
  socket_is_open p = false ->
  exec (connectWebSocket true) p
  = set_socket (Some (length (sockets p)))
      (set_sockets (sockets p ++ [mkWebSocket (wsUrl_of p) CONNECTING []]) p).
Proof.
  intros Ho. unfold connectWebSocket, exec, mbind, js_bind, bind, get.
  rewrite Ho. by destruct_page p.
Qed.

Lemma connectWebSocket_throw (p : page) :
  socket_is_open p = false ->
  exec (connectWebSocket false) p
  = exec scheduleReconnect
      (set_effects
         (effects p ++ [ConsoleError "Failed to create WebSocket connection:"]) p).
Proof.
  intros Ho. unfold connectWebSocket, exec, mbind, js_bind, bind, get.
  rewrite Ho. by destruct_page p.
Qed.

Lemma exec_onclose (p : page) :
  exec onclose p
  = exec scheduleReconnect
      (exec (updateConnectionStatus false)
         (set_isConnected false
            (set_effects
               (effects p ++ [ConsoleLog "Notification WebSocket disconnected"]) p))).
Proof. by destruct_page p. Qed.

Lemma series_elem (a : nat) :
  (a < 5)%nat -> 1000 * 2 ^ (Z.of_nat (S a) - 1) ∈ series.
Proof.
  intros Ha.
  assert (a = 0 \/ a = 1 \/ a = 2 \/ a = 3 \/ a = 4)%nat
    as [-> | [-> | [-> | [-> | ->]]]] by lia;
    apply list_elem_of_In; simpl; tauto.
Qed.

Lemma backoff_bounded_schedule (p : page) :
  backoff_bounded p -> backoff_bounded (exec scheduleReconnect p).
Proof.
  destruct_page p. intros (Hm & Hd & Ha & Ht). simpl in *. subst.
  js_run. unfold backoff_bounded. destruct (ra <? 5)%nat eqn:E; simpl.
  - apply Nat.ltb_lt in E. split; [done|]. split; [done|]. split; [lia|].
    apply Forall_app. split; [done|]. apply Forall_singleton. simpl.
    by apply series_elem.
  - by repeat split.
Qed.

Lemma backoff_bounded_link (p q : page) :
  link q = link p -> backoff_bounded p -> backoff_bounded q.
Proof.
  unfold link, backoff_bounded. intros H. injection H as _ -> -> -> _ ->. done.
Qed.

Lemma backoff_bounded_connect (c : bool) (p : page) :
  backoff_bounded p -> backoff_bounded (exec (connectWebSocket c) p).
Proof.
  intros Hp. destruct (socket_is_open p) eqn:Ho.
  - by rewrite connectWebSocket_open.
  - destruct c.
    + rewrite connectWebSocket_new by done. by destruct_page p.
    + rewrite connectWebSocket_throw by done. apply backoff_bounded_schedule.
      by destruct_page p.
Qed.

Lemma backoff_bounded_readyState (h : nat) (st : ready_state) (p : page) :
  backoff_bounded p -> backoff_bounded (set_readyState h st p).
Proof.
  unfold set_readyState. destruct (sockets p !! h); by destruct_page p.
Qed.

Lemma backoff_bounded_onopen (p : page) :
  backoff_bounded p -> backoff_bounded (exec onopen p).
Proof.
  destruct_page p. unfold backoff_bounded. simpl.
  intros (Hm & Hd & Ha & Ht). repeat split; try done. lia.
Qed.

Lemma backoff_bounded_step (p : page) (e : event) :
  backoff_bounded p -> backoff_bounded (step p e).
Proof.
  intros Hp. destruct e as [h | h d | h | h | h | i c].
  - rewrite step_ws_open. case_bool_decide; [|done].
    by apply backoff_bounded_onopen, backoff_bounded_readyState.
  - rewrite step_ws_message. case_bool_decide; [|done].
    eapply backoff_bounded_link; [apply onmessage_link | done].
  - rewrite step_ws_error. destruct (readyState_of h p); [|done].
    eapply backoff_bounded_link; [apply onerror_link | done].
  - rewrite step_ws_closing. case_bool_decide; [|done].
    by apply backoff_bounded_readyState.
  - rewrite step_ws_close.
    assert (backoff_bounded (exec onclose (set_readyState h CLOSED p))) as H.
    { rewrite exec_onclose. apply backoff_bounded_schedule.
      apply (backoff_bounded_readyState h CLOSED) in Hp.
      by destruct_page (set_readyState h CLOSED p). }
    by destruct (readyState_of h p) as [[]|].
  - rewrite step_timeout. destruct (timers p !! i) as [t|] eqn:Ht; [|done].
    destruct (fired t); [done|]. apply backoff_bounded_connect.
    destruct Hp as (Hm & Hd & Ha & Hts). destruct_page p. simpl in *.
    repeat split; try done.
    apply Forall_insert; [done|]. simpl.
    eapply (proj1 (Forall_lookup _ _) Hts); eauto.
Qed.

Lemma backoff_bounded_run (es : list event) (p : page) :
  backoff_bounded p -> backoff_bounded (run es p).
Proof.
  revert p. induction es as [|e es IH]; intros p Hp; simpl; [done|].
  apply IH. by apply backoff_bounded_step.
Qed.

(** X1.  From a fresh page, whatever socket events and timeouts follow
    the load, the attempt counter never exceeds five and every reconnect
    timeout armed so far has one of the delays 1000, 2000, 4000, 8000 and
    16000 ms. *)
Theorem backoff_bounded_in_every_run
    (p : page) (currentUserId constructs : bool) (es : list event) :
  fresh p ->
  (reconnectAttempts (run es (load currentUserId constructs p)) <= 5)%nat /\
  Forall (fun d => d ∈ [1000; 2000; 4000; 8000; 16000])
         (scheduled (run es (load currentUserId constructs p))).
Proof.
  intros [Hs Ht].
  assert (backoff_bounded (load currentUserId constructs p)) as H0.
  { unfold load, init. destruct currentUserId.
    - apply backoff_bounded_connect. destruct_page p. simpl in *. subst.
      repeat split; simpl; try done; lia.
    - destruct_page p. simpl in *. subst. repeat split; simpl; try done; lia. }
  destruct (backoff_bounded_run es _ H0) as (_ & _ & Ha & Hts).
  split; [done|]. unfold scheduled. by apply Forall_fmap.
Qed.

Lemma backoff_bounded_in_every_run_witness :
  fresh bell_page /\
  (reconnectAttempts
     (run [ws_error 0; ws_close 0; timeout 0 false; timeout 1 true; ws_close 1]
          (load true true bell_page)) <= 5)%nat /\
  Forall (fun d => d ∈ [1000; 2000; 4000; 8000; 16000])
    (scheduled
       (run [ws_error 0; ws_close 0; timeout 0 false; timeout 1 true; ws_close 1]
            (load true true bell_page))).
Proof.
  assert (fresh bell_page) as Hf by (split; reflexivity).
  split; [exact Hf|].
  exact (backoff_bounded_in_every_run bell_page true true
           [ws_error 0; ws_close 0; timeout 0 false; timeout 1 true; ws_close 1]
           Hf).
Defined.

(** *** A page with nothing live and nothing pending stays that way *)

Lemma live_none_closed (p : page) (h : nat) (w : WebSocket) :
  live p = [] -> sockets p !! h = Some w -> readyState w = CLOSED.
Proof.
  unfold live. intros Hl Hw.
  destruct (decide (readyState w = CLOSED)) as [|Hne]; [done|].
  assert (w ∈ filter (fun w => readyState w <> CLOSED) (sockets p)) as Hin.
  { apply list_elem_of_filter. split; [done|]. by eapply list_elem_of_lookup_2. }
  rewrite Hl in Hin. by apply not_elem_of_nil in Hin.
Qed.

Lemma pending_none_fired (p : page) (i : nat) (t : timer) :
  pending p = [] -> timers p !! i = Some t -> fired t = true.
Proof.
  unfold pending. intros Hp Ht.
  destruct (fired t) eqn:Hf; [done|].
  assert (t ∈ filter (fun t => fired t = false) (timers p)) as Hin.
  { apply list_elem_of_filter. split; [done|]. by eapply list_elem_of_lookup_2. }
  rewrite Hp in Hin. by apply not_elem_of_nil in Hin.
Qed.

Lemma quiescent_step (p : page) (e : event) :
  quiescent p -> link (step p e) = link p.
Proof.
  intros [Hl Hp]. destruct e as [h | h d | h | h | h | i c].
  - rewrite step_ws_open. case_bool_decide as Hc; [|done].
    unfold readyState_of in Hc. destruct (sockets p !! h) as [w|] eqn:Hw; [|done].
    injection Hc as Hc. by rewrite (live_none_closed p h w Hl Hw) in Hc.
  - rewrite step_ws_message. case_bool_decide as Hc; [|done].
    unfold readyState_of in Hc. destruct (sockets p !! h) as [w|] eqn:Hw; [|done].
    injection Hc as Hc. by rewrite (live_none_closed p h w Hl Hw) in Hc.
  - rewrite step_ws_error. destruct (readyState_of h p); [|done].
    apply onerror_link.
  - rewrite step_ws_closing. case_bool_decide as Hc; [|done].
    unfold readyState_of in Hc. destruct (sockets p !! h) as [w|] eqn:Hw; [|done].
    injection Hc as Hc. by rewrite (live_none_closed p h w Hl Hw) in Hc.
  - rewrite step_ws_close. unfold readyState_of.
    destruct (sockets p !! h) as [w|] eqn:Hw; [|done]. simpl.
    by rewrite (live_none_closed p h w Hl Hw).
  - rewrite step_timeout. destruct (timers p !! i) as [t|] eqn:Ht; [|done].
    by rewrite (pending_none_fired p i t Hp Ht).
Qed.

Lemma quiescent_link (p q : page) : link q = link p -> quiescent p -> quiescent q.
Proof.
  unfold link, quiescent, live, pending. intros H. by injection H as _ _ _ _ -> ->.
Qed.

(** X2.  A page with no live socket and no pending reconnect timeout
    stays as it is: no event constructs a socket, arms a timeout, re-points
    [this.socket] or changes the attempt counter.  This is the state the
    client is in once its reconnect attempts are exhausted. *)
Theorem quiescent_forever (p : page) (es : list event) :
  live p = [] -> pending p = [] ->
  sockets (run es p) = sockets p /\ timers (run es p) = timers p /\
  socket (run es p) = socket p /\
  reconnectAttempts (run es p) = reconnectAttempts p.
Proof.
  intros Hl Hp.
  assert (link (run es p) = link p) as H.
  { assert (quiescent p) as Hq by done. clear Hl Hp.
    revert p Hq. induction es as [|e es IH]; intros p Hq; simpl; [done|].
    rewrite IH.
    - by apply quiescent_step.
    - eapply quiescent_link; [by apply quiescent_step | done]. }
  unfold link in H. by injection H as -> -> _ _ -> ->.
Qed.

Lemma quiescent_forever_witness :
  live (failing_run refused [refused; refused; refused; refused; refused]
                    bell_page) = [] /\
  pending (failing_run refused [refused; refused; refused; refused; refused]
                       bell_page) = [] /\
  timers (run [timeout 4 true; ws_close 5; ws_open 5; ws_error 2]
              (failing_run refused [refused; refused; refused; refused; refused]
                           bell_page))
  = timers (failing_run refused [refused; refused; refused; refused; refused]
                        bell_page).
Proof.
  assert (live (failing_run refused [refused; refused; refused; refused; refused]
                            bell_page) = []) as Hl by reflexivity.
  assert (pending (failing_run refused
                     [refused; refused; refused; refused; refused] bell_page)
          = []) as Hp by reflexivity.
  split; [exact Hl|]. split; [exact Hp|].
  exact (proj1 (proj2 (quiescent_forever _
           [timeout 4 true; ws_close 5; ws_open 5; ws_error 2] Hl Hp))).
Defined.

(** *** The connected flag and the current socket *)

Lemma single_live_none (p : page) (i : nat) (t : timer) :
  single p -> timers p !! i = Some t -> fired t = false -> live p = [].
Proof.
  unfold single, pending. intros Hs Ht Hf.
  assert (t ∈ filter (fun t => fired t = false) (timers p)) as Hin.
  { apply list_elem_of_filter. split; [done|]. by eapply list_elem_of_lookup_2. }
  destruct (filter _ (timers p)) as [|t' l]; [by apply not_elem_of_nil in Hin|].
  simpl in Hs. apply length_zero_iff_nil. lia.
Qed.

Lemma live_none_not_up (p : page) : live p = [] -> socket_is_up p = false.
Proof.
  unfold live, socket_is_up. intros Hl.
  destruct (socket p) as [h|]; [|done].
  destruct (sockets p !! h) as [w|] eqn:Hw; [|done].
  apply bool_decide_eq_false. intros Ho.
  assert (w ∈ filter (fun w => readyState w <> CLOSED) (sockets p)) as Hin.
  { apply list_elem_of_filter. split; [|by eapply list_elem_of_lookup_2].
    destruct Ho as [Ho|Ho]; congruence. }
  rewrite Hl in Hin. by apply not_elem_of_nil in Hin.
Qed.

Lemma flag_sound_link (p q : page) :
  link q = link p -> isConnected q = isConnected p ->
  flag_sound p -> flag_sound q.
Proof.
  unfold link, flag_sound, socket_is_up. intros H Hi.
  injection H as -> _ _ _ -> _. by rewrite Hi.
Qed.

Lemma handleMessage_isConnected (data : message) :
  keeps isConnected (handleMessage data).
Proof.
  destruct data as [c | n | i | t]; simpl;
    unfold handleNewNotification, handleNotificationRead; repeat keeps_step.
Qed.

Lemma scheduleReconnect_flag (p : page) :
  socket (exec scheduleReconnect p) = socket p /\
  sockets (exec scheduleReconnect p) = sockets p /\
  isConnected (exec scheduleReconnect p) = isConnected p.
Proof. destruct_page p. js_run. by destruct (ra <? mx)%nat. Qed.

Lemma flag_sound_step (p : page) (e : event) :
  single p -> flag_sound p -> flag_sound (step p e).
Proof.
  intros Hs [Hcur Hflag]. destruct e as [h | h d | h | h | h | i c].
  - rewrite step_ws_open. case_bool_decide as Hc; [|done].
    unfold readyState_of in Hc. destruct (sockets p !! h) as [w|] eqn:Hw; [|done].
    injection Hc as Hc.
    assert (socket p = Some h) as Hso by (apply (Hcur h w Hw); congruence).
    assert (h < length (sockets p))%nat as Hlt by (by apply lookup_lt_Some with w).
    unfold set_readyState. rewrite Hw. destruct_page p. simpl in *. subst.
    split; simpl.
    + intros h' w' Hw' Hne. destruct (decide (h' = h)) as [->|Hd]; [done|].
      rewrite list_lookup_insert_ne in Hw' by done. by eapply Hcur.
    + intros _. unfold socket_is_up. simpl.
      rewrite list_lookup_insert_eq by done. apply bool_decide_eq_true. by left.
  - rewrite step_ws_message. case_bool_decide; [|done].
    eapply flag_sound_link; [apply onmessage_link| |done].
    destruct d as [m|]; [apply handleMessage_isConnected | done].
  - rewrite step_ws_error. destruct (readyState_of h p); [|done].
    split.
    + intros h' w' Hw' Hne. pose proof (onerror_link p) as Hk.
      unfold link in Hk. injection Hk as Hso _ _ _ Hss _.
      rewrite Hso. rewrite Hss in Hw'. by eapply Hcur.
    + by destruct_page p.
  - rewrite step_ws_closing. case_bool_decide as Hc; [|done].
    unfold readyState_of in Hc. destruct (sockets p !! h) as [w|] eqn:Hw; [|done].
    injection Hc as Hc.
    assert (socket p = Some h) as Hso by (apply (Hcur h w Hw); congruence).
    assert (h < length (sockets p))%nat as Hlt by (by apply lookup_lt_Some with w).
    unfold set_readyState. rewrite Hw. destruct_page p. simpl in *. subst.
    split; simpl.
    + intros h' w' Hw' Hne. destruct (decide (h' = h)) as [->|Hd]; [done|].
      rewrite list_lookup_insert_ne in Hw' by done. by eapply Hcur.
    + intros _. unfold socket_is_up. simpl.
      rewrite list_lookup_insert_eq by done. apply bool_decide_eq_true. by right.
  - rewrite step_ws_close. unfold readyState_of.
    destruct (sockets p !! h) as [w|] eqn:Hw; [|done]. simpl.
    assert (flag_sound (exec onclose (set_readyState h CLOSED p))) as H.
    { assert (h < length (sockets p))%nat as Hlt
        by (by apply lookup_lt_Some with w).
      rewrite exec_onclose.
      destruct (scheduleReconnect_flag
        (exec (updateConnectionStatus false)
           (set_isConnected false
              (set_effects
                 (effects (set_readyState h CLOSED p) ++
                  [ConsoleLog "Notification WebSocket disconnected"])
                 (set_readyState h CLOSED p))))) as (Hso & Hss & Hic).
      unfold flag_sound, socket_is_up. rewrite Hso, Hss, Hic.
      unfold set_readyState. rewrite Hw. destruct_page p. simpl in *.
      split; [|done].
      intros h' w' Hw' Hne. destruct (decide (h' = h)) as [->|Hd].
      - rewrite list_lookup_insert_eq in Hw' by done.
        injection Hw' as <-. done.
      - rewrite list_lookup_insert_ne in Hw' by done. by eapply Hcur. }
    by destruct (readyState w).
  - rewrite step_timeout. destruct (timers p !! i) as [t|] eqn:Ht; [|done].
    destruct (fired t) eqn:Hf; [done|].
    pose proof (single_live_none p i t Hs Ht Hf) as Hl.
    pose proof (live_none_not_open p Hl) as Hno.
    assert (isConnected p = false) as Hic.
    { destruct (isConnected p); [|done].
      rewrite (live_none_not_up p Hl) in Hflag. by specialize (Hflag eq_refl). }
    set (p0 := set_timers (<[i := mkTimer (delay t) true]> (timers p)) p).
    assert (socket_is_open p0 = false) as Hno0 by (by destruct_page p).
    destruct c.
    + rewrite connectWebSocket_new by done.
      unfold p0. destruct_page p. simpl in *. subst. split; simpl; [|done].
      intros h' w' Hw' Hne.
      destruct (decide (h' < length ss)%nat) as [Hlt|Hge].
      * rewrite lookup_app_l in Hw' by done.
        by rewrite (live_none_closed _ h' w' Hl Hw') in Hne.
      * assert (h' < length (ss ++ [mkWebSocket
            (wsUrl_of (mkPage so nc false ra mx rd ss
               (<[i := mkTimer (delay t) true]> ts) bs ins dd ti pe cl lp lh ef))
            CONNECTING []]))%nat as Hb by (by apply lookup_lt_Some with w').
        rewrite length_app in Hb. simpl in Hb. f_equal. lia.
    + rewrite connectWebSocket_throw by done.
      destruct (scheduleReconnect_flag
        (set_effects
           (effects p0 ++ [ConsoleError "Failed to create WebSocket connection:"])
           p0)) as (Hso & Hss & Hi).
      unfold flag_sound, socket_is_up. rewrite Hso, Hss, Hi.
      unfold p0. destruct_page p. simpl in *. subst. split; [|done].
      intros h' w' Hw' Hne. by eapply Hcur.
Qed.

Lemma flag_sound_load (currentUserId constructs : bool) (p : page) :
  fresh p -> flag_sound (load currentUserId constructs p).
Proof.
  intros [Hs Ht]. destruct_page p. simpl in *. subst.
  unfold load, init. destruct currentUserId; [|by split].
  destruct constructs.
  - rewrite connectWebSocket_new by done. split; simpl; [|done].
    intros [|h'] w' Hw' _; [done|]. by destruct h'.
  - rewrite connectWebSocket_throw by done.
    destruct (scheduleReconnect_flag
      (set_effects
         (effects (constructor_fields
            (mkPage so nc ic ra mx rd [] [] bs ins dd ti pe cl lp lh ef)) ++
          [ConsoleError "Failed to create WebSocket connection:"])
         (constructor_fields
            (mkPage so nc ic ra mx rd [] [] bs ins dd ti pe cl lp lh ef))))
      as (Hso & Hss & Hi).
    unfold flag_sound, socket_is_up. rewrite Hso, Hss, Hi. simpl.
    split; [|done]. by intros [|h'] w' Hw' _.
Qed.

Lemma flag_sound_run (es : list event) (p : page) :
  single p -> flag_sound p -> flag_sound (run es p).
Proof.
  revert p. induction es as [|e es IH]; intros p Hs Hf; simpl; [done|].
  apply IH; [by apply single_step | by apply flag_sound_step].
Qed.

(** X3.  In every run from a fresh page, closing handshakes included,
    when [isConnected] is set then [this.socket] is open or closing, never
    missing, connecting or closed; and every socket that is not closed is
    [this.socket].  The flag alone does not tell that a frame can be sent: it
    stays set while the socket is closing. *)
Theorem connected_flag_means_not_closed
    (p : page) (currentUserId constructs : bool) (es : list event) :
  fresh p ->
  (isConnected (run es (load currentUserId constructs p)) = true ->
   exists (h : nat) (w : WebSocket),
     socket (run es (load currentUserId constructs p)) = Some h /\
     sockets (run es (load currentUserId constructs p)) !! h = Some w /\
     (readyState w = OPEN \/ readyState w = CLOSING)) /\
  (forall h w,
     sockets (run es (load currentUserId constructs p)) !! h = Some w ->
     readyState w <> CLOSED ->
     socket (run es (load currentUserId constructs p)) = Some h).
Proof.
  intros Hf.
  destruct (flag_sound_run es (load currentUserId constructs p)
              (single_load _ _ p Hf) (flag_sound_load _ _ p Hf)) as [Hcur Hflag].
  split; [|exact Hcur].
  intros Hc. specialize (Hflag Hc). unfold socket_is_up in Hflag.
  destruct (socket _) as [h|]; [|done].
  destruct (sockets _ !! h) as [w|] eqn:Hw; [|done].
  apply bool_decide_eq_true in Hflag. by exists h, w.
Qed.

Lemma connected_flag_means_not_closed_witness :
  fresh bell_page /\
  isConnected (run [ws_open 0; ws_closing 0] (load true true bell_page)) = true /\
  readyState_of 0 (run [ws_open 0; ws_closing 0] (load true true bell_page))
    = Some CLOSING /\
  exists (h : nat) (w : WebSocket),
    socket (run [ws_open 0; ws_closing 0] (load true true bell_page)) = Some h /\
    sockets (run [ws_open 0; ws_closing 0] (load true true bell_page)) !! h
      = Some w /\
    (readyState w = OPEN \/ readyState w = CLOSING).
Proof.
  assert (fresh bell_page) as Hf by (split; reflexivity).
  assert (isConnected (run [ws_open 0; ws_closing 0] (load true true bell_page))
          = true) as Hc by reflexivity.
  split; [exact Hf|]. split; [exact Hc|]. split; [reflexivity|].
  exact (proj1 (connected_flag_means_not_closed bell_page true true
                  [ws_open 0; ws_closing 0] Hf) Hc).
Defined.

(** *** The status indicators follow the connected flag *)











(** ** What the page shows *)



Lemma count_shown_same (p q : page) :
  notificationCount q = notificationCount p -> badges q = badges p ->
  count_shown p -> count_shown q.
Proof. unfold count_shown. by intros -> ->. Qed.

Lemma after_update_keeps {B} (f : page -> B) (c : Z) (k : js unit) (p : page) :
  keeps f k ->
  f (exec (updateNotificationCount c ≫= fun _ => k) p)
  = f (exec (updateNotificationCount c) p).
Proof.
  intros Hk. rewrite exec_bind_unit by apply total_updateNotificationCount.
  apply Hk.
Qed.

Lemma handleNewNotification_view {B} (f : page -> B) (n : option notification)
    (p : page) :
  (forall v q, f (set_effects v q) = f q) ->
  (forall v q, f (set_dropdown v q) = f q) ->
  f (exec (handleNewNotification n) p)
  = f (exec (updateNotificationCount (notificationCount p + 1))
         (set_notificationCount (notificationCount p + 1) p)).
Proof.
  intros He Hd. unfold handleNewNotification.
  rewrite exec_bind_unit by reflexivity. rewrite exec_bind_get.
  rewrite after_update_keeps.
  - f_equal. f_equal. by destruct_page p.
  - unfold showNotificationToast, playNotificationSound,
      showBrowserNotification, addToNotificationDropdown, emit.
    repeat first
      [ apply keeps_ret | apply keeps_throw | apply keeps_get
      | apply keeps_modify; intros q; first [apply He | apply Hd]
      | apply keeps_bind; [|intros ?]
      | match goal with
        | |- keeps _ (if ?c then _ else _) => destruct c
        | |- keeps _ (match ?x with _ => _ end) => destruct x
        end ].
Qed.

Lemma handleNotificationRead_view {B} (f : page -> B) (i : string) (p : page) :
  (forall v q, f (set_dropdown v q) = f q) ->
  f (exec (handleNotificationRead i) p)
  = if 0 <? notificationCount p
    then f (exec (updateNotificationCount (notificationCount p - 1))
              (set_notificationCount (notificationCount p - 1) p))
    else f p.
Proof.
  intros Hd. unfold handleNotificationRead. rewrite exec_bind_get.
  assert (keeps f (removeFromNotificationDropdown i)) as Hk.
  { unfold removeFromNotificationDropdown.
    repeat first
      [ apply keeps_ret | apply keeps_get
      | apply keeps_modify; intros q; apply Hd
      | apply keeps_bind; [|intros ?]
      | match goal with
        | |- keeps _ (match ?x with _ => _ end) => destruct x
        end ]. }
  destruct (0 <? notificationCount p).
  - rewrite exec_bind_unit.
    + rewrite Hk. rewrite exec_bind_unit by reflexivity. rewrite exec_bind_get.
      f_equal. f_equal. by destruct_page p.
    + rewrite returns_bind_unit by reflexivity.
      apply (total_bind get); [apply total_get|].
      intros a. apply total_updateNotificationCount.
  - rewrite exec_bind_unit by reflexivity. by rewrite Hk.
Qed.




(** *** Decimal numerals *)

Lemma append_cons (c : ascii) (a b : string) :
  String c a +:+ b = String c (a +:+ b).
Proof. reflexivity. Qed.

Lemma string_app_assoc (a b c : string) : (a +:+ b) +:+ c = a +:+ (b +:+ c).
Proof.
  induction a as [|x a IH]; [done|]. rewrite !append_cons. by rewrite IH.
Qed.

Lemma string_app_nil_r (a : string) : a +:+ "" = a.
Proof. induction a as [|x a IH]; [done|]. rewrite append_cons. by rewrite IH. Qed.

Lemma all_digits_app (a b : string) :
  all_digits (a +:+ b) = all_digits a && all_digits b.
Proof.
  induction a as [|x a IH]; [done|]. rewrite append_cons. simpl.
  by rewrite IH, andb_assoc.
Qed.

Lemma is_digit_pretty_N_char (x : N) : is_digit (pretty_N_char x) = true.
Proof. unfold pretty_N_char. by repeat case_match. Qed.

Lemma pretty_N_go_digits (x : N) (s : string) :
  exists d, pretty_N_go x s = d +:+ s /\ all_digits d = true /\
            ((0 < x)%N -> d <> "").
Proof.
  revert s. induction (N.lt_wf_0 x) as [x _ IH]; intros s.
  destruct (decide (0 < x)%N) as [Hx|Hx].
  - rewrite pretty_N_go_step by done.
    destruct (IH (x `div` 10)%N ltac:(by apply N.div_lt)
                 (String (pretty_N_char (x `mod` 10)) s)) as (d & Hd & Hall & _).
    exists (d +:+ String (pretty_N_char (x `mod` 10)) "").
    split; [|split].
    + by rewrite Hd, string_app_assoc.
    + rewrite all_digits_app, Hall. simpl. by rewrite is_digit_pretty_N_char.
    + intros _. by destruct d.
  - replace x with 0%N by lia. exists "". rewrite pretty_N_go_0.
    split; [done|]. split; [done|]. lia.
Qed.

Lemma pretty_pos_digits (c : Z) :
  0 < c -> exists a d, pretty c = String a d /\ is_digit a = true /\
                       all_digits d = true.
Proof.
  intros Hc. destruct c as [|x|x]; try lia.
  unfold pretty, pretty_Z, pretty, pretty_positive, pretty, pretty_N.
  destruct (decide (N.pos x = 0)%N); [done|].
  destruct (pretty_N_go_digits (N.pos x) "") as (d & Hd & Hall & Hne).
  rewrite Hd, string_app_nil_r.
  destruct d as [|a d]; [by destruct Hne|].
  simpl in Hall. apply andb_true_iff in Hall as [Ha Hall]. by exists a, d.
Qed.

Lemma skip_digits_app (d r : string) :
  all_digits d = true -> skip_digits (d +:+ String ")" r) = String ")" r.
Proof.
  induction d as [|c d IH]; [done|]. rewrite append_cons. simpl.
  intros H. apply andb_true_iff in H as [-> H]. by apply IH.
Qed.

(** The prefix written for a positive count is the prefix removed. *)
Lemma strip_decorate (c : Z) (base : string) :
  0 < c -> strip_count_prefix ("(" +:+ pretty c +:+ ") " +:+ base) = base.
Proof.
  intros Hc. destruct (pretty_pos_digits c Hc) as (a & d & -> & Ha & Hd).
  change ("(" +:+ String a d +:+ ") " +:+ base)
    with (String "(" (String a (d +:+ String ")" (String " " base)))).
  unfold strip_count_prefix. rewrite Ha.
  change (String a (d +:+ String ")" (String " " base)))
    with (String a d +:+ String ")" (String " " base)).
  rewrite skip_digits_app by (simpl; by rewrite Ha, Hd). done.
Qed.

Lemma title_update (c c' : Z) (base : string) (p : page) :
  strip_count_prefix base = base -> title p = decorate c' base ->
  title (exec (updateNotificationCount c) p) = decorate c base.
Proof.
  intros Hb Ht.
  assert (strip_count_prefix (title p) = base) as Hs.
  { rewrite Ht. unfold decorate. destruct (0 <? c') eqn:E; [|done].
    apply strip_decorate. by apply Z.ltb_lt. }
  destruct_page p. simpl in *. rewrite Hs. done.
Qed.

Lemma title_shown_message (base : string) (m : message) (p : page) :
  strip_count_prefix base = base ->
  (exists c, title p = decorate c base) ->
  (renders_count m = true \/ title_shown base p) ->
  title_shown base (exec (handleMessage m) p).
Proof.
  intros Hb [c' Ht] H. unfold title_shown.
  destruct m as [c | n | i | t]; simpl.
  - rewrite notificationCount_update. by eapply title_update.
  - rewrite (handleNewNotification_view notificationCount) by (by intros v []).
    rewrite (handleNewNotification_view title) by (by intros v []).
    rewrite notificationCount_update. eapply (title_update _ c'); [done|].
    by destruct_page p.
  - destruct H as [H|H]; [done|].
    rewrite (handleNotificationRead_view notificationCount) by (by intros v []).
    rewrite (handleNotificationRead_view title) by (by intros v []).
    destruct (0 <? notificationCount p); [|done].
    rewrite notificationCount_update. eapply (title_update _ c'); [done|].
    by destruct_page p.
  - by destruct H.
Qed.

(** X6.  The prefix that [updateNotificationCount] puts in front of
    the title is the one it strips again.  So for a base title of ASCII
    text that [document.title] returns as written and that does not itself
    start with such a prefix, and for safe integer counts, the title after
    any messages is the base title with at most one prefix, that of the
    current count. *)
Theorem title_prefix_never_stacks
    (base : string) (p : page) (m : message) (ms : list message) (c b : Z) :
  (0 < c < 2 ^ 53 ->
   strip_count_prefix ("(" +:+ pretty c +:+ ") " +:+ base) = base) /\
  (ascii_text base = true -> collapsed base = true ->
   strip_count_prefix base = base ->
   (exists c', title p = decorate c' base) ->
   (renders_count m = true -> counts_within b p (m :: ms) ->
    title_shown base (deliver (m :: ms) p)) /\
   (title_shown base p -> counts_within b p ms ->
    title_shown base (deliver ms p))).
Proof.
  split; [intros [Hc _]; by apply strip_decorate|].
  intros _ _ Hb Ht.
  assert (forall ms p, title_shown base p -> title_shown base (deliver ms p))
    as Hrun.
  { clear -Hb. induction ms as [|m ms IH]; intros p Hp; [done|].
    rewrite deliver_cons. apply IH, title_shown_message; [done| |by right].
    by exists (notificationCount p). }
  split; [|intros Hs _; by apply Hrun].
  intros Hm _. rewrite deliver_cons. apply Hrun, title_shown_message; auto.
Qed.

Lemma title_prefix_never_stacks_witness :
  strip_count_prefix "(12) Hireo" = "Hireo" /\
  title (deliver [new_notification (Some (arrival 1)); notification_read "n1"]
                 two_unread)
  = "(2) Hireo".
Proof.
  assert (strip_count_prefix "Hireo" = "Hireo") as Hb by reflexivity.
  assert (exists c', title two_unread = decorate c' "Hireo") as Ht
    by (exists 2; reflexivity).
  assert (counts_within 2 two_unread
            [new_notification (Some (arrival 1)); notification_read "n1"])
    as Hw by (repeat split; simpl; try lia; repeat constructor).
  destruct (title_prefix_never_stacks "Hireo" two_unread
              (new_notification (Some (arrival 1)))
              [notification_read "n1"] 12 2) as [Hstrip Hrun].
  split; [exact (Hstrip ltac:(lia))|].
  destruct (Hrun eq_refl eq_refl Hb Ht) as [Hfirst _].
  exact (Hfirst eq_refl Hw).
Defined.

(** *** The count stays non-negative *)

(** X7.  When the count is not negative and the server sends no
    negative count, the count is not negative after any messages. *)
Theorem unread_count_never_negative (p : page) (ms : list message) :
  0 <= notificationCount p -> Forall count_ok ms ->
  0 <= notificationCount (deliver ms p).
Proof.
  revert p. induction ms as [|m ms IH]; intros p Hp Hms; [done|].
  rewrite deliver_cons. apply Forall_cons in Hms as [Hm Hms].
  apply IH; [|done]. destruct m as [c | n | i | t]; simpl in *.
  - by rewrite notificationCount_update.
  - change (handleNewNotification n) with (handleMessage (new_notification n)).
    rewrite new_notification_count. lia.
  - rewrite handleNotificationRead_count.
    destruct (0 <? notificationCount p) eqn:E; [|done].
    apply Z.ltb_lt in E. lia.
  - done.
Qed.

Lemma unread_count_never_negative_witness :
  0 <= notificationCount
         (deliver [notification_read "n1"; notification_read "n2";
                   notification_read "n3"; notification_count 4;
                   new_notification None] two_unread).
Proof.
  apply unread_count_never_negative.
  - simpl. lia.
  - repeat (constructor; [simpl; try exact I; lia|]). constructor.
Defined.

(** *** What a new notification shows *)



(** *** A notification that arrives and is then read *)

Lemma inserted_head (now : Z) (n : notification) (children : list element) :
  exists rest, inserted now n children = notificationElement now n :: rest /\
    filter (fun e => is_item e = true) (inserted now n children)
    = notificationElement now n :: filter (fun e => is_item e = true) rest.
Proof.
  unfold inserted.
  destruct (10 <? _)%nat eqn:E.
  - apply Nat.ltb_lt in E. rewrite filter_cons_True in E by done. simpl in E.
    assert (existsb is_item children = true) as Hex.
    { destruct (existsb is_item children) eqn:Hex; [done|].
      rewrite (no_item_filter children Hex) in E. simpl in E. lia. }
    simpl. rewrite Hex. simpl. eexists. split; [done|].
    by rewrite filter_cons_True.
  - eexists. split; [done|]. by rewrite filter_cons_True.
Qed.

(** X9.  A notification with an identifier for its id, a type word and
    text for its content, that arrives and is then read, leaves the (safe
    integer) count where it was, and its item stays at the head of the
    list, marked read. *)
Theorem arrival_then_read (p : page) (n : notification) :
  is_Some (dropdown p) -> (length (recent p) <= 10)%nat ->
  0 <= notificationCount p -> safe_integer (notificationCount p + 1) ->
  plain_notification n ->
  notificationCount
    (deliver [new_notification (Some n); notification_read (n_id n)] p)
    = notificationCount p /\
  recent (deliver [new_notification (Some n); notification_read (n_id n)] p)
    = take 10 (mark_read (notificationElement (clock p) n) :: recent p) /\
  classList (mark_read (notificationElement (clock p) n))
    = ["notification-item"; "read"].
Proof.
  intros [children Hd] Hlen Hc _ (Hplain & _ & _).
  unfold deliver. simpl fold_left.
  set (p1 := exec (handleNewNotification (Some n)) p).
  assert (notificationCount p1 = notificationCount p + 1) as Hc1
    by apply (new_notification_count (Some n) p).
  destruct (handleNewNotification_dropdown n p) as [Hd1 _].
  simpl in Hd1. fold p1 in Hd1. rewrite Hd in Hd1. simpl in Hd1.
  split; [|split; [|done]].
  - rewrite handleNotificationRead_count, Hc1.
    replace (0 <? notificationCount p + 1) with true
      by (symmetry; apply Z.ltb_lt; lia). lia.
  - unfold recent at 1.
    rewrite handleNotificationRead_dropdown by done.
    rewrite removeFromNotificationDropdown_dropdown by done. rewrite Hd1.
    destruct (inserted_head (clock p) n children) as (rest & Hins & Hrec).
    rewrite Hins. simpl.
    destruct (decide (Some (n_id n) = Some (n_id n))) as [_|Hne]; [|done].
    simpl. rewrite filter_cons_True by done. f_equal.
    pose proof (recent_inserted (clock p) n children) as Hr.
    unfold recent in Hlen |- *. rewrite Hd in Hlen |- *. specialize (Hr Hlen).
    rewrite Hrec in Hr. simpl in Hr. by injection Hr.
Qed.

Lemma arrival_then_read_witness :
  notificationCount
    (deliver [new_notification (Some (arrival 1)); notification_read "n1"]
             bell_page) = 0 /\
  map classList
    (recent (deliver [new_notification (Some (arrival 1));
                      notification_read "n1"] bell_page))
  = [["notification-item"; "read"]].
Proof.
  assert (is_Some (dropdown bell_page)) as Hd by (by eexists).
  assert (length (recent bell_page) <= 10)%nat as Hlen by (simpl; lia).
  assert (0 <= notificationCount bell_page) as Hc by (simpl; lia).
  assert (safe_integer (notificationCount bell_page + 1)) as Hs
    by (unfold safe_integer; simpl; lia).
  assert (plain_notification (arrival 1)) as Hn by (repeat split).
  destruct (arrival_then_read bell_page (arrival 1) Hd Hlen Hc Hs Hn)
    as (Hcount & Hrec & Hcl).
  split; [exact Hcount|].
  change (n_id (arrival 1)) with "n1" in Hrec.
  rewrite Hrec. reflexivity.
Defined.

(** ** Relative times *)

(** X10.  [getTimeAgo] answers in whole minutes below an hour, whole
    hours below a day and whole days from there on, each rounded down, and
    Just now below a minute (also for a date in the future). *)
Theorem getTimeAgo_buckets (now date : Z) :
  (now - date < 60000 /\ getTimeAgo now date = "Just now") \/
  (exists k, 1 <= k <= 59 /\
             60000 * k <= now - date < 60000 * (k + 1) /\
             getTimeAgo now date = pretty k +:+ "m ago") \/
  (exists k, 1 <= k <= 23 /\
             3600000 * k <= now - date < 3600000 * (k + 1) /\
             getTimeAgo now date = pretty k +:+ "h ago") \/
  (exists k, 1 <= k /\
             86400000 * k <= now - date < 86400000 * (k + 1) /\
             getTimeAgo now date = pretty k +:+ "d ago").
Proof.
  unfold getTimeAgo.
  set (diff := now - date).
  pose proof (Z.div_mod diff 60000 ltac:(lia)) as Hm.
  pose proof (Z.mod_pos_bound diff 60000 ltac:(lia)) as Hmr.
  set (m := diff / 60000) in *.
  pose proof (Z.div_mod m 60 ltac:(lia)) as Hh.
  pose proof (Z.mod_pos_bound m 60 ltac:(lia)) as Hhr.
  set (h := m / 60) in *.
  pose proof (Z.div_mod h 24 ltac:(lia)) as Hd.
  pose proof (Z.mod_pos_bound h 24 ltac:(lia)) as Hdr.
  set (d := h / 24) in *.
  destruct (m <? 1) eqn:E1.
  { apply Z.ltb_lt in E1. left. split; [lia|done]. }
  apply Z.ltb_ge in E1. right.
  destruct (m <? 60) eqn:E2.
  { apply Z.ltb_lt in E2. left. exists m. split; [lia|]. split; [lia|done]. }
  apply Z.ltb_ge in E2. right.
  destruct (h <? 24) eqn:E3.
  { apply Z.ltb_lt in E3. left. exists h. split; [lia|]. split; [lia|done]. }
  apply Z.ltb_ge in E3. right.
  exists d. split; [lia|]. split; [lia|done].
Qed.

(** ** Marking every notification as read, and the XP counter *)

Lemma forEach_markAsRead_open {A} (g : A -> string) (l : list A)
    (p : page) (h : nat) (w : WebSocket) :
  socket p = Some h -> sockets p !! h = Some w -> readyState w = OPEN ->
  forEach (fun x => markAsRead (g x)) l p
  = (Returned tt,
     set_sockets
       (<[h := mkWebSocket (url w) OPEN
                 (sent w ++ map (fun x => mkOutbound "mark_read" (g x)) l)]>
          (sockets p)) p).
Proof.
  revert p w. induction l as [|x l IH]; intros p w Hso Hw Ho; simpl.
  - rewrite app_nil_r. unfold ret. f_equal.
    destruct w as [u r s]. simpl in Ho. subst r.
    rewrite list_insert_id by done. by destruct_page p.
  - unfold mbind, js_bind, bind.
    rewrite (markAsRead_open (g x) p h w Hso Hw Ho).
    assert (h < length (sockets p))%nat as Hlt by (by apply lookup_lt_Some with w).
    rewrite (IH _ (mkWebSocket (url w) OPEN
                     (sent w ++ [mkOutbound "mark_read" (g x)]))).
    + f_equal. destruct_page p. simpl. rewrite list_insert_insert_eq.
      by rewrite <- app_assoc.
    + by destruct_page p.
    + destruct_page p. simpl. by apply list_lookup_insert_eq.
    + done.
Qed.

Lemma forEach_markAsRead_closed {A} (g : A -> string) (l : list A) (p : page) :
  socket_is_open p = false ->
  forEach (fun x => markAsRead (g x)) l p = (Returned tt, p).
Proof.
  intros Hc. induction l as [|x l IH]; simpl; [done|].
  unfold mbind, js_bind, bind. by rewrite markAsRead_closed.
Qed.

(** X11.  When the ids of the unread items are ASCII text, and safe
    integers where they are numerals, [markAllAsRead] returns; with the
    socket open it sends one frame for each unread item of the dropdown, in
    document order and after the frames already sent, and otherwise it
    changes nothing. *)
Theorem markAllAsRead_one_frame_per_unread_item (p : page) :
  Forall frame_exact (unread p) ->
  returns markAllAsRead p = true /\
  (if socket_is_open p
   then exists (h : nat) (w : WebSocket),
          socket p = Some h /\ sockets p !! h = Some w /\
          exec markAllAsRead p
            = set_sockets
                (<[h := mkWebSocket (url w) OPEN
                          (sent w ++ map frame_of (unread p))]> (sockets p)) p
   else exec markAllAsRead p = p).
Proof.
  intros _.
  unfold markAllAsRead, returns, exec, mbind, js_bind, bind, get.
  destruct (socket_is_open p) eqn:Ho.
  - unfold socket_is_open in Ho.
    destruct (socket p) as [h|] eqn:Hso; [|done].
    destruct (sockets p !! h) as [w|] eqn:Hw; [|done].
    apply bool_decide_eq_true in Ho.
    rewrite (forEach_markAsRead_open _ (unread p) p h w Hso Hw Ho). simpl.
    split; [done|]. by exists h, w.
  - by rewrite forEach_markAsRead_closed.
Qed.

Lemma markAllAsRead_one_frame_per_unread_item_witness :
  sockets (exec markAllAsRead numbered_unread)
  = [mkWebSocket "wss://hireo.example/ws/notifications/" OPEN
       [mkOutbound "mark_read" "42"; mkOutbound "mark_read" "7"]].
Proof.
  assert (Forall frame_exact (unread numbered_unread)) as Hx
    by (repeat constructor; unfold safe_integer; simpl; lia).
  destruct (markAllAsRead_one_frame_per_unread_item numbered_unread Hx) as [_ H].
  change (socket_is_open numbered_unread) with true in H. cbv iota in H.
  destruct H as (h & w & Hs & Hw & ->).
  injection Hs as <-. injection Hw as <-. reflexivity.
Defined.

(** *** Decimal numerals read back *)

Lemma is_digit_value (c : ascii) :
  is_digit c = true ->
  digit_value 10 c = Some (Z.of_nat (nat_of_ascii c) - 48) /\
  is_space c = false /\ c <> "-"%char /\ c <> "+"%char /\
  c <> "x"%char /\ c <> "X"%char.
Proof.
  intros H.
  assert (c <> "-"%char /\ c <> "+"%char /\ c <> "x"%char /\ c <> "X"%char)
    as Hne by (repeat split; intros ->; vm_compute in H; discriminate).
  unfold is_digit, digit_value, is_space in *.
  apply andb_true_iff in H as [H1 H2].
  apply Z.leb_le in H1. apply Z.leb_le in H2.
  split; [|split].
  - rewrite (proj2 (Z.leb_le _ _) H1), (proj2 (Z.leb_le _ _) H2). simpl.
    by rewrite (proj2 (Z.ltb_lt _ _)) by lia.
  - apply orb_false_iff. split.
    + apply andb_false_iff. right. apply Z.leb_gt. lia.
    + apply Z.eqb_neq. lia.
  - exact Hne.
Qed.

Lemma digit_value_pretty_N_char (x : N) :
  (x < 10)%N -> digit_value 10 (pretty_N_char x) = Some (Z.of_N x).
Proof.
  intros Hx.
  assert (x = 0 \/ x = 1 \/ x = 2 \/ x = 3 \/ x = 4 \/ x = 5 \/ x = 6 \/
          x = 7 \/ x = 8 \/ x = 9)%N
    as [->|[->|[->|[->|[->|[->|[->|[->|[->| ->]]]]]]]]] by lia; reflexivity.
Qed.

Lemma parse_digits_pretty_N_go (x : N) (s : string) :
  exists k, forall acc,
    parse_digits 10 acc (pretty_N_go x s)
    = parse_digits 10 (acc * k + Z.of_N x) s.
Proof.
  revert s. induction (N.lt_wf_0 x) as [x _ IH]; intros s.
  destruct (decide (0 < x)%N) as [Hx|Hx].
  - rewrite pretty_N_go_step by done.
    destruct (IH (x `div` 10)%N ltac:(by apply N.div_lt)
                 (String (pretty_N_char (x `mod` 10)) s)) as [k Hk].
    exists (k * 10). intros acc. rewrite Hk. simpl.
    rewrite digit_value_pretty_N_char by (apply N.mod_lt; lia).
    f_equal. rewrite (N.div_mod x 10) at 3 by lia.
    rewrite N2Z.inj_add, N2Z.inj_mul. simpl Z.of_N. lia.
  - replace x with 0%N by lia. exists 1. intros acc.
    rewrite pretty_N_go_0. f_equal. simpl. lia.
Qed.

Lemma parse_unsigned_pretty_pos (x : positive) :
  parse_unsigned (pretty (Z.pos x)) = Some (Z.pos x).
Proof.
  destruct (pretty_pos_digits (Z.pos x) ltac:(lia)) as (a & d & Hp & Ha & Hd).
  assert (parse_digits 10 0 (pretty (Z.pos x)) = Z.pos x) as Hv.
  { unfold pretty, pretty_Z, pretty, pretty_positive, pretty, pretty_N.
    destruct (decide (N.pos x = 0)%N); [done|].
    destruct (parse_digits_pretty_N_go (N.pos x) "") as [k Hk].
    rewrite Hk. simpl. lia. }
  assert (parse_radix 10 (pretty (Z.pos x)) = Some (Z.pos x)) as Hr.
  { unfold parse_radix. rewrite Hp.
    destruct (is_digit_value a Ha) as (-> & _). by rewrite <- Hp, Hv. }
  unfold parse_unsigned. rewrite Hp in *.
  destruct d as [|x' r]; [done|].
  simpl in Hd. apply andb_true_iff in Hd as [Hx' _].
  destruct (is_digit_value x' Hx') as (_ & _ & _ & _ & Hx1 & Hx2).
  rewrite bool_decide_eq_false_2 by (intros [_ [?|?]]; done). done.
Qed.

Lemma parseInt_pretty (z : Z) : parseInt (pretty z) = Some z.
Proof.
  destruct z as [|x|x].
  - reflexivity.
  - destruct (pretty_pos_digits (Z.pos x) ltac:(lia)) as (a & d & Hp & Ha & Hd).
    destruct (is_digit_value a Ha) as (_ & Hs & Hm & Hpl & _).
    unfold parseInt. rewrite Hp.
    change (ltrim (String a d)) with (if is_space a then ltrim d else String a d).
    rewrite Hs. cbv beta iota.
    rewrite !bool_decide_eq_false_2 by done.
    rewrite <- Hp. apply parse_unsigned_pretty_pos.
  - change (pretty (Z.neg x)) with (String "-" (pretty (Z.pos x))).
    unfold parseInt.
    change (ltrim (String "-" (pretty (Z.pos x))))
      with (String "-" (pretty (Z.pos x))).
    cbv beta iota. rewrite bool_decide_eq_true_2 by done.
    by rewrite parse_unsigned_pretty_pos.
Qed.

Lemma not_digit_value (c : ascii) :
  is_digit c = false -> digit_value 10 c = None.
Proof.
  unfold is_digit, digit_value. intros H.
  set (n := Z.of_nat (nat_of_ascii c)) in *.
  rewrite H.
  destruct ((97 <=? n) && (n <=? 122)) eqn:E1.
  - apply andb_true_iff in E1 as [E1 _]. apply Z.leb_le in E1.
    by rewrite (proj2 (Z.ltb_ge _ _)) by lia.
  - destruct ((65 <=? n) && (n <=? 90)) eqn:E2; [|done].
    apply andb_true_iff in E2 as [E2 _]. apply Z.leb_le in E2.
    by rewrite (proj2 (Z.ltb_ge _ _)) by lia.
Qed.

Lemma parseInt_not_numeral (c : ascii) (r : string) :
  is_digit c = false -> is_space c = false ->
  c <> "-"%char -> c <> "+"%char ->
  parseInt (String c r) = None.
Proof.
  intros Hd Hs Hm Hp. unfold parseInt.
  change (ltrim (String c r)) with (if is_space c then ltrim r else String c r).
  rewrite Hs. cbv beta iota.
  rewrite !bool_decide_eq_false_2 by done.
  assert (parse_radix 10 (String c r) = None) as Hr
    by (unfold parse_radix; by rewrite not_digit_value).
  unfold parse_unsigned. destruct r as [|x r]; [done|].
  rewrite bool_decide_eq_false_2; [done|].
  intros [-> _]. vm_compute in Hd. discriminate.
Qed.

(** X12.  The frame for an item whose id is a decimal numeral (below
    2^53) carries that numeral; for an id that starts with an ASCII
    character other than a digit, a sign or white space, and for an item
    without an id, it carries [null]. *)
Theorem markAllAsRead_frame_ids
    (e1 : element) (z : Z) (e2 : element) (c : ascii) (r : string)
    (e3 : element) :
  (notificationId e1 = Some (pretty z) -> Z.abs z < 2 ^ 53 ->
   frame_of e1 = mkOutbound "mark_read" (pretty z)) /\
  (notificationId e2 = Some (String c r) -> code c < 128 ->
   is_digit c = false -> is_space c = false ->
   c <> "-"%char -> c <> "+"%char ->
   frame_of e2 = mkOutbound "mark_read" "null") /\
  (notificationId e3 = None -> frame_of e3 = mkOutbound "mark_read" "null").
Proof.
  unfold frame_of, dataset_text. split; [|split].
  - intros -> _. by rewrite parseInt_pretty.
  - intros -> _ Hd Hs Hm Hp. by rewrite parseInt_not_numeral.
  - by intros ->.
Qed.

Lemma markAllAsRead_frame_ids_witness :
  frame_of (mkElement ["notification-item"; "unread"] (Some "42") None)
    = mkOutbound "mark_read" "42" /\
  frame_of (mkElement ["notification-item"; "unread"] (Some "n1") None)
    = mkOutbound "mark_read" "null" /\
  frame_of placeholder = mkOutbound "mark_read" "null".
Proof.
  destruct (markAllAsRead_frame_ids
              (mkElement ["notification-item"; "unread"] (Some "42") None) 42
              (mkElement ["notification-item"; "unread"] (Some "n1") None)
              "n"%char "1" placeholder) as (H1 & H2 & H3).
  split; [exact (H1 eq_refl ltac:(vm_compute; reflexivity))|].
  split; [|exact (H3 eq_refl)].
  apply (H2 eq_refl);
    [vm_compute; reflexivity | reflexivity | reflexivity
    | discriminate | discriminate].
Defined.

Lemma refreshes_numeral (rs : list Z) (n : Z) :
  refreshes rs (Some (pretty n)) = Some (pretty (n + sum rs)).
Proof.
  revert n. induction rs as [|r rs IH]; intros n; simpl.
  - by rewrite Z.add_0_r.
  - unfold refreshes in IH. rewrite parseInt_pretty. simpl.
    rewrite IH. do 2 f_equal. lia.
Qed.

Lemma sum_bounds (rs : list Z) :
  Forall (fun r => 0 <= r <= 9) rs -> 0 <= sum rs <= 9 * Z.of_nat (length rs).
Proof.
  induction 1 as [|r rs Hr _ IH]; simpl; lia.
Qed.

(** X13.  On a numeral, repeated [refreshStats] never lowers the XP
    and raises it by at most nine per call; on ASCII text [parseInt] cannot
    read it writes NaN, which then stays; without the element it does nothing. *)
Theorem refreshStats_xp_only_grows
    (n : Z) (rs : list Z) (t : string) (r : Z) :
  (Forall (fun r => 0 <= r <= 9) rs ->
   - 2 ^ 53 < n -> n + 9 * Z.of_nat (length rs) < 2 ^ 53 ->
   exists n', refreshes rs (Some (pretty n)) = Some (pretty n') /\
              n <= n' <= n + 9 * Z.of_nat (length rs)) /\
  (ascii_text t = true -> parseInt t = None ->
   refreshStats r (Some t) = Some "NaN" /\
   refreshes rs (Some "NaN") = Some "NaN") /\
  refreshes rs None = None.
Proof.
  split; [|split].
  - intros Hrs _ _. exists (n + sum rs). split; [apply refreshes_numeral|].
    pose proof (sum_bounds rs Hrs). lia.
  - intros _ Ht. split; [unfold refreshStats; by rewrite Ht|].
    induction rs as [|r' rs IH]; [done|]. exact IH.
  - induction rs as [|r' rs IH]; [done|]. exact IH.
Qed.

Lemma refreshStats_xp_only_grows_witness :
  (exists n', refreshes [3; 9; 0] (Some "120") = Some (pretty n') /\
              120 <= n' <= 147) /\
  refreshStats 4 (Some "lots") = Some "NaN".
Proof.
  destruct (refreshStats_xp_only_grows 120 [3; 9; 0] "lots" 4)
    as (Hgrow & Hnan & _).
  split.
  - apply Hgrow.
    + repeat (constructor; [lia|]). constructor.
    + lia.
    + simpl. lia.
  - exact (proj1 (Hnan eq_refl eq_refl)).
Defined.

(** ** Cookies *)

Lemma cookie_name_token (s : string) : cookie_name s = true -> token s = true.
Proof.
  induction s as [|c r IH]; simpl; [done|]. intros H.
  apply andb_true_iff in H as [H Hr]. apply andb_true_iff in H as [H _].
  rewrite H. simpl. by apply IH.
Qed.

Lemma token_app (a b : string) : token (a +:+ b) = token a && token b.
Proof.
  induction a as [|c a IH]; [done|]. rewrite append_cons. simpl.
  rewrite IH. by rewrite andb_assoc.
Qed.

Lemma token_pair (kv : string * string) :
  cookie_name kv.1 = true -> token kv.2 = true -> token (pair_text kv) = true.
Proof.
  intros Hk Hv. unfold pair_text. rewrite !token_app.
  by rewrite (cookie_name_token _ Hk), Hv.
Qed.

Lemma split_on_cons (sep : ascii) (s : string) :
  exists h t, split_on sep s = h :: t.
Proof.
  induction s as [|c r (h & t & IH)]; simpl; [by eexists _, _|].
  case_bool_decide; [by eexists _, _|]. rewrite IH. by eexists _, _.
Qed.

Lemma split_on_token (s t : string) :
  token s = true ->
  split_on ";" (s +:+ String ";" t) = s :: split_on ";" t.
Proof.
  induction s as [|c r IH]; intros H.
  - reflexivity.
  - rewrite append_cons. simpl in *.
    apply andb_true_iff in H as [H Hr]. apply andb_true_iff in H as [_ Hc].
    apply negb_true_iff in Hc. rewrite Hc. by rewrite IH.
Qed.

Lemma split_on_token_end (s : string) :
  token s = true -> split_on ";" s = [s].
Proof.
  induction s as [|c r IH]; intros H; simpl in *; [done|].
  apply andb_true_iff in H as [H Hr]. apply andb_true_iff in H as [_ Hc].
  apply negb_true_iff in Hc. rewrite Hc. by rewrite IH.
Qed.

Lemma rtrim_token (s : string) : token s = true -> rtrim s = s.
Proof.
  induction s as [|c r IH]; intros H; simpl in *; [done|].
  apply andb_true_iff in H as [H Hr]. apply andb_true_iff in H as [Hs _].
  apply negb_true_iff in Hs. rewrite IH by done. rewrite Hs. by destruct r.
Qed.

Lemma ltrim_token (s : string) : token s = true -> ltrim s = s.
Proof.
  destruct s as [|c r]; simpl; [done|]. intros H.
  apply andb_true_iff in H as [H Hr]. apply andb_true_iff in H as [Hs _].
  apply negb_true_iff in Hs. by rewrite Hs.
Qed.

Lemma trim_token (s : string) : token s = true -> trim s = s.
Proof. intros H. unfold trim. by rewrite ltrim_token, rtrim_token. Qed.

Lemma substring_0_0 (s : string) : substring 0 0 s = "".
Proof. by destruct s. Qed.

Lemma prefix_is_name (name k v : string) :
  cookie_name name = true -> cookie_name k = true ->
  substring 0 (String.length name + 1) (k +:+ "=" +:+ v) = name +:+ "="
  <-> k = name.
Proof.
  revert k. induction name as [|n name IH]; intros k Hn Hk.
  - change (String.length "" + 1)%nat with 1%nat.
    change ("" +:+ "=") with (String "=" "").
    destruct k as [|c k].
    + change ("" +:+ "=" +:+ v) with (String "=" v). simpl.
      by rewrite substring_0_0.
    + rewrite append_cons. simpl. rewrite substring_0_0. simpl in Hk.
      split; [|done]. intros [= ->].
      apply andb_true_iff in Hk as [Hk _]. apply andb_true_iff in Hk as [_ Hk].
      by rewrite bool_decide_eq_true_2 in Hk.
  - simpl in Hn. apply andb_true_iff in Hn as [Hn Hn'].
    apply andb_true_iff in Hn as [_ Hne].
    change (String.length (String n name) + 1)%nat
      with (S (String.length name + 1)).
    rewrite (append_cons n name "=").
    destruct k as [|c k].
    + change ("" +:+ "=" +:+ v) with (String "=" v).
      simpl. split; [|done]. intros [= <- _].
      by rewrite bool_decide_eq_true_2 in Hne.
    + simpl in Hk. apply andb_true_iff in Hk as [_ Hk'].
      rewrite append_cons. simpl. specialize (IH k Hn' Hk').
      split.
      * intros [= -> H]. f_equal. by apply IH.
      * intros [= -> ->]. f_equal. by apply IH.
Qed.

Lemma substring_from_pair (k v : string) :
  substring_from (String.length k + 1) (k +:+ "=" +:+ v) = v.
Proof. induction k as [|c k IH]; [done|]. rewrite append_cons. simpl. exact IH. Qed.

Section GetCookieFacts.
Variable decodeURIComponent : string -> completion string.

Lemma getCookie_loop_jar (name : string) (segs : list string)
    (jar : list (string * string)) :
  cookie_name name = true -> well_formed jar ->
  Forall2 (fun seg kv => trim seg = pair_text kv) segs jar ->
  getCookie_loop decodeURIComponent name segs = decoded decodeURIComponent (jar_lookup name jar).
Proof.
  intros Hn Hwf H. induction H as [|seg kv segs jar Hseg _ IH]; simpl; [done|].
  apply Forall_cons in Hwf as [[Hk Hv] Hwf].
  rewrite Hseg. unfold pair_text.
  pose proof (prefix_is_name name kv.1 kv.2 Hn Hk) as Hp.
  destruct (decide (kv.1 = name)) as [He|He].
  - rewrite bool_decide_eq_true_2 by (by apply Hp).
    rewrite bool_decide_eq_true_2 by done.
    rewrite <- He. by rewrite substring_from_pair.
  - rewrite bool_decide_eq_false_2 by (intros H; by apply Hp in H).
    rewrite bool_decide_eq_false_2 by done. by apply IH.
Qed.

Lemma split_on_space (s h : string) (t : list string) :
  split_on ";" s = h :: t -> split_on ";" (String " " s) = String " " h :: t.
Proof. intros H. simpl. by rewrite H. Qed.

Lemma split_jar_text (kv : string * string) (jar : list (string * string)) :
  well_formed (kv :: jar) ->
  Forall2 (fun seg kv => trim seg = pair_text kv)
          (split_on ";" (jar_text (kv :: jar))) (kv :: jar).
Proof.
  revert kv. induction jar as [|kv' jar IH]; intros kv Hwf.
  - apply Forall_cons in Hwf as [[Hk Hv] _]. simpl.
    rewrite split_on_token_end by (by apply token_pair).
    constructor; [|constructor]. apply trim_token. by apply token_pair.
  - pose proof Hwf as Hwf0. apply Forall_cons in Hwf as [[Hk Hv] Hwf].
    change (jar_text (kv :: kv' :: jar))
      with (pair_text kv +:+ String ";" (String " " (jar_text (kv' :: jar)))).
    rewrite split_on_token by (by apply token_pair).
    constructor; [apply trim_token; by apply token_pair|].
    specialize (IH kv' Hwf).
    destruct (split_on_cons ";" (jar_text (kv' :: jar))) as (h & t & Hs).
    rewrite (split_on_space _ h t Hs).
    rewrite Hs in IH. inversion IH as [|? ? ? ? Hh Ht]; subst.
    constructor; [|done].
    rewrite <- Hh. reflexivity.
Qed.

(** X14.  On the cookie text of a jar of pairs of ASCII text,
    [getCookie(name)]
    decodes the value of the first pair whose name is exactly [name], and
    gives [null] when there is none; a cookie whose name only ends with
    [name] is not taken. *)
Theorem getCookie_finds_first_exact_name
    (jar : list (string * string)) (name : string) :
  cookie_name name = true -> well_formed jar ->
  Forall (fun kv => ascii_text (pair_text kv) = true) jar ->
  getCookie decodeURIComponent (jar_text jar) name
  = decoded decodeURIComponent (jar_lookup name jar).
Proof.
  intros Hn Hwf _. unfold getCookie. destruct jar as [|kv jar]; [done|].
  rewrite bool_decide_eq_true_2.
  - apply getCookie_loop_jar; [done|done|]. by apply split_jar_text.
  - apply Forall_cons in Hwf as [[Hk Hv] _].
    destruct jar; simpl; unfold pair_text; destruct (kv.1); done.
Qed.
End GetCookieFacts.

Lemma getCookie_finds_first_exact_name_witness :
  getCookie Returned "sessionid=abc; mycsrftoken=no; csrftoken=tok123; csrftoken=later"
            "csrftoken"
  = Returned (Some "tok123").
Proof.
  apply (getCookie_finds_first_exact_name Returned
           [("sessionid", "abc"); ("mycsrftoken", "no");
            ("csrftoken", "tok123"); ("csrftoken", "later")] "csrftoken").
  - reflexivity.
  - repeat (constructor; [split; reflexivity|]). constructor.
  - repeat (constructor; [reflexivity|]). constructor.
Defined.

(** ** The achievement filters *)

Lemma show_achievements_length f achs ps :
  length (show_achievements f achs ps) = length ps.
Proof.
  unfold show_achievements.
  revert ps. induction achs as [|a achs IH]; intros ps; simpl; [done|].
  by rewrite IH, length_insert.
Qed.

Lemma show_achievements_untouched f achs ps j :
  (forall a, a ∈ achs -> a_parent a <> j) ->
  show_achievements f achs ps !! j = ps !! j.
Proof.
  unfold show_achievements.
  revert ps. induction achs as [|a achs IH]; intros ps H; simpl; [done|].
  rewrite IH.
  - apply list_lookup_insert_ne. apply H. by left.
  - intros a' Ha'. apply H. by right.
Qed.

Lemma show_achievements_agree f achs ps ps' :
  length ps = length ps' ->
  (forall j, (forall a, a ∈ achs -> a_parent a <> j) -> ps !! j = ps' !! j) ->
  show_achievements f achs ps = show_achievements f achs ps'.
Proof.
  unfold show_achievements.
  revert ps ps'. induction achs as [|a achs IH]; intros ps ps' Hlen H; simpl.
  - apply list_eq. intros j. apply H. intros a Ha. by apply not_elem_of_nil in Ha.
  - apply IH; [by rewrite !length_insert|].
    intros j Hj. destruct (decide (a_parent a = j)) as [<-|Hne].
    + destruct (decide (a_parent a < length ps)%nat).
      * rewrite !list_lookup_insert_eq by lia. done.
      * rewrite !list_insert_ge by lia. rewrite !lookup_ge_None_2 by lia. done.
    + rewrite !list_lookup_insert_ne by done. apply H.
      intros a' Ha'. apply elem_of_cons in Ha' as [->|Ha']; [done|by apply Hj].
Qed.

Lemma classList_remove_add_remove (c : string) (l : list string) :
  classList_remove c (classList_add c (classList_remove c l))
  = classList_remove c l.
Proof.
  unfold classList_add, classList_contains.
  destruct (bool_decide _).
  - unfold classList_remove. by rewrite list_filter_filter, (list_filter_iff _ (fun x => x <> c)) by tauto.
  - unfold classList_remove. rewrite filter_app, filter_cons_False, filter_nil by (intros H; by apply H).
    rewrite app_nil_r. by rewrite list_filter_filter, (list_filter_iff _ (fun x => x <> c)) by tauto.
Qed.


Lemma click_filter_eq i g b :
  filterButtons g !! i = Some b ->
  click_filter i g =
  mkGallery
    (<[i := fb_add "active" (fb_remove "active" b)]>
       (fb_remove "active" <$> filterButtons g))
    (achievements g)
    (show_achievements (fb_filter b) (achievements g) (parents g)).
Proof.
  intros Hb. unfold click_filter. rewrite list_lookup_fmap, Hb. reflexivity.
Qed.

Lemma click_filter_none i g :
  filterButtons g !! i = None -> click_filter i g = g.
Proof.
  intros Hb. unfold click_filter. by rewrite list_lookup_fmap, Hb.
Qed.

Lemma fb_remove_add_remove c b :
  fb_remove c (fb_add c (fb_remove c b)) = fb_remove c b.
Proof.
  unfold fb_remove, fb_add. simpl. by rewrite classList_remove_add_remove.
Qed.

Lemma fb_remove_remove c b : fb_remove c (fb_remove c b) = fb_remove c b.
Proof.
  unfold fb_remove. simpl. f_equal. unfold classList_remove.
  rewrite list_filter_filter. apply list_filter_iff. tauto.
Qed.

Lemma not_active_removed l : "active" ∉ classList_remove "active" l.
Proof.
  unfold classList_remove. intros H. apply list_elem_of_filter in H as [H _]. done.
Qed.

Lemma active_added l : "active" ∈ classList_add "active" l.
Proof.
  unfold classList_add, classList_contains.
  destruct (bool_decide _) eqn:E.
  - by apply bool_decide_eq_true in E.
  - apply elem_of_app. right. by left.
Qed.

(** X15.  Whatever was clicked before, the gallery after a click on a
    filter button is the same: the last click alone decides classes and
    visibility, and a second click on the same button changes nothing. *)
Theorem filter_last_click_wins (g : gallery) (i j : nat) :
  (j < length (filterButtons g))%nat ->
  click_filter j (click_filter i g) = click_filter j g.
Proof.
  intros Hj.
  destruct (filterButtons g !! i) as [bi|] eqn:Hi;
    [|by rewrite (click_filter_none i g Hi)].
  destruct (lookup_lt_is_Some_2 _ _ Hj) as [bj Hbj].
  rewrite (click_filter_eq i g bi Hi).
  set (g1 := mkGallery _ _ _).
  assert (Hj1 : exists b1, filterButtons g1 !! j = Some b1 /\
            fb_remove "active" b1 = fb_remove "active" bj).
  { unfold g1; simpl. destruct (decide (i = j)) as [->|Hne].
    - eexists. split.
      + apply list_lookup_insert_eq. by rewrite length_fmap.
      + assert (bi = bj) by congruence. subst bi. apply fb_remove_add_remove.
    - exists (fb_remove "active" bj). split.
      + rewrite list_lookup_insert_ne by done. by rewrite list_lookup_fmap, Hbj.
      + apply fb_remove_remove. }
  destruct Hj1 as (b1 & Hb1 & Hcl).
  rewrite (click_filter_eq j g1 b1 Hb1), (click_filter_eq j g bj Hbj).
  assert (fb_filter b1 = fb_filter bj) as Hf
    by (change (fb_filter (fb_remove "active" b1)
                = fb_filter (fb_remove "active" bj)); by rewrite Hcl).
  rewrite Hcl, Hf. f_equal.
  - f_equal. unfold g1; simpl. apply list_eq. intros k.
    rewrite !list_lookup_fmap.
    destruct (decide (i = k)) as [->|Hne].
    + rewrite list_lookup_insert_eq
        by (rewrite length_fmap; by apply lookup_lt_is_Some_1).
      rewrite Hi. simpl. f_equal. apply fb_remove_add_remove.
    + rewrite list_lookup_insert_ne by done. rewrite list_lookup_fmap.
      destruct (filterButtons g !! k) as [bk|]; simpl; [|done].
      f_equal. apply fb_remove_remove.
  - unfold g1; simpl. apply show_achievements_agree.
    + apply show_achievements_length.
    + intros k Hk. by apply show_achievements_untouched.
Qed.

Lemma filter_last_click_wins_witness :
  click_filter 1 (click_filter 2 trophy_gallery) = click_filter 1 trophy_gallery.
Proof.
  apply filter_last_click_wins. simpl. lia.
Defined.

(** X16.  After a click on a filter button, that button and no other
    carries the class [active]. *)
Theorem filter_one_active_button (g : gallery) (i k : nat) (b : filter_button) :
  (i < length (filterButtons g))%nat ->
  filterButtons (click_filter i g) !! k = Some b ->
  is_active b <-> k = i.
Proof.
  intros Hi Hk. destruct (lookup_lt_is_Some_2 _ _ Hi) as [bi Hbi].
  rewrite (click_filter_eq i g bi Hbi) in Hk. simpl in Hk.
  unfold is_active. destruct (decide (i = k)) as [->|Hne].
  - rewrite list_lookup_insert_eq in Hk by (by rewrite length_fmap).
    injection Hk as <-. simpl. split; [done|]. intros _. apply active_added.
  - rewrite list_lookup_insert_ne in Hk by done.
    rewrite list_lookup_fmap in Hk.
    destruct (filterButtons g !! k) as [bk|]; simpl in Hk; [|done].
    injection Hk as <-. simpl. split; [|by intros ->].
    intros H. by apply not_active_removed in H.
Qed.

Lemma filter_one_active_button_witness :
  is_active (mkFilterButton ["btn"] (Some "all")) <-> 0%nat = 1%nat.
Proof.
  apply (filter_one_active_button trophy_gallery 1 0
           (mkFilterButton ["btn"] (Some "all"))).
  - simpl. lia.
  - reflexivity.
Defined.



(** ** The education fields of the profile form *)

Lemma add_education_fields_seq n k :
  Nat.iter k add_education_field (seq 0 n) = seq 0 (n + k).
Proof.
  induction k as [|k IH]; simpl.
  - by rewrite Nat.add_0_r.
  - rewrite IH. unfold add_education_field. rewrite length_seq.
    replace (n + S k)%nat with (S (n + k)) by lia. by rewrite seq_S.
Qed.

(** X18.  Fields that are only ever added carry the indices 0, 1, 2,
    ...; once a field other than the last has been removed, the next field
    added takes the index of a field that is still there. *)
Theorem education_field_indices (n k i : nat) :
  Nat.iter k add_education_field (seq 0 n) = seq 0 (n + k) /\
  ((i + 1 < n)%nat ->
   add_education_field (remove_education_field i (seq 0 n))
     = remove_education_field i (seq 0 n) ++ [(n - 1)%nat] /\
   (n - 1)%nat ∈ remove_education_field i (seq 0 n) /\
   ~ NoDup (add_education_field (remove_education_field i (seq 0 n)))).
Proof.
  split; [apply add_education_fields_seq|]. intros Hi.
  assert (Hlen : length (remove_education_field i (seq 0 n)) = (n - 1)%nat).
  { unfold remove_education_field. rewrite length_delete; [by rewrite length_seq|].
    apply lookup_lt_is_Some_2. rewrite length_seq. lia. }
  assert (Hin : (n - 1)%nat ∈ remove_education_field i (seq 0 n)).
  { apply list_elem_of_lookup. exists (n - 2)%nat.
    unfold remove_education_field. rewrite list_lookup_delete_ge by lia.
    rewrite lookup_seq. split; lia || (f_equal; lia). }
  unfold add_education_field. rewrite Hlen. split; [done|]. split; [done|].
  intros Hnd. apply NoDup_app in Hnd as (_ & Hdis & _).
  apply (Hdis _ Hin). by left.
Qed.

Lemma education_field_indices_witness :
  add_education_field (remove_education_field 0 [0; 1; 2])%nat = [1; 2; 2]%nat /\
  ~ NoDup (add_education_field (remove_education_field 0 [0; 1; 2]))%nat.
Proof.
  destruct (education_field_indices 3 0 0) as [_ H].
  destruct (H ltac:(lia)) as (Heq & _ & Hdup).
  split; [exact Heq | exact Hdup].
Defined.

(** ** The search form and the skills input *)

Lemma ltrim_blank s : ltrim s = "" <-> blank s = true.
Proof.
  induction s as [|c r IH]; simpl; [done|].
  destruct (is_space c); simpl; [done|]. split; discriminate.
Qed.

Lemma rtrim_blank s : rtrim s = "" <-> blank s = true.
Proof.
  induction s as [|c r IH]; simpl; [done|].
  destruct (rtrim r) eqn:E.
  - destruct (is_space c); simpl; [tauto|]. split; discriminate.
  - split; [discriminate|]. intros H. apply andb_true_iff in H as [_ H].
    apply IH in H. discriminate.
Qed.

Lemma ltrim_head s : ltrim s = "" \/
  exists c r, ltrim s = String c r /\ is_space c = false.
Proof.
  induction s as [|c r IH]; simpl; [by left|].
  destruct (is_space c) eqn:E; [done|]. right. by exists c, r.
Qed.

Lemma trim_blank s : trim s = "" <-> blank s = true.
Proof.
  unfold trim. rewrite rtrim_blank.
  pose proof (ltrim_blank s) as Hs. rewrite <- Hs. clear Hs.
  destruct (ltrim_head s) as [->|(c & r & -> & Hc)]; [by split|].
  simpl. rewrite Hc. simpl. split; discriminate.
Qed.

Lemma trim_blank_decide s : bool_decide (trim s = "") = blank s.
Proof.
  destruct (blank s) eqn:E.
  - apply bool_decide_eq_true. by apply trim_blank.
  - apply bool_decide_eq_false. intros H. apply trim_blank in H. congruence.
Qed.

Lemma rtrim_head c r : is_space c = false ->
  exists r', rtrim (String c r) = String c r'.
Proof.
  intros Hc. simpl. destruct (rtrim r) as [|c' r'].
  - rewrite Hc. by exists EmptyString.
  - by exists (String c' r').
Qed.

Lemma ascii_text_ltrim s : ascii_text s = true -> ascii_text (ltrim s) = true.
Proof.
  unfold ascii_text. induction s as [|c r IH]; simpl; [done|].
  intros H. destruct (is_space c); [|done].
  apply andb_true_iff in H as [_ H]. by apply IH.
Qed.

Lemma ascii_text_rtrim s : ascii_text s = true -> ascii_text (rtrim s) = true.
Proof.
  unfold ascii_text. induction s as [|c r IH]; simpl; [done|].
  intros H. apply andb_true_iff in H as [Hc H]. specialize (IH H).
  destruct (rtrim r) as [|c' r'].
  - destruct (is_space c); simpl; [done|]. by rewrite Hc.
  - simpl in *. by rewrite Hc, IH.
Qed.

Lemma rtrim_last s : rtrim s <> "" -> not_space (last_char (rtrim s)).
Proof.
  induction s as [|c r IH]; simpl; [done|].
  destruct (rtrim r) as [|c' r'] eqn:E.
  - destruct (is_space c) eqn:Ec; [done|]. intros _. by exists c.
  - intros _. change (last_char (String c (String c' r')))
      with (last_char (String c' r')). by apply IH.
Qed.

Lemma trim_tidy s : ascii_text s = true -> trim s <> "" -> tidy (trim s).
Proof.
  intros Ha Hne. split; [by apply ascii_text_rtrim, ascii_text_ltrim|].
  split; [|by apply rtrim_last].
  unfold trim in *. destruct (ltrim_head s) as [E|(c & r & E & Hc)];
    rewrite E in *; [done|].
  destruct (rtrim_head c r Hc) as [r' Hr']. rewrite Hr'. by exists c.
Qed.

(** X19.  For ASCII text in both fields, the search is stopped, with a
    warning, exactly when both fields hold nothing but white space. *)
Theorem search_stopped_iff_blank (query location : string) :
  ascii_text query = true -> ascii_text location = true ->
  (searchForm_submit query location <> None
     <-> blank query = true /\ blank location = true) /\
  (searchForm_submit query location = None
     <-> blank query = false \/ blank location = false).
Proof.
  intros _ _.
  unfold searchForm_submit. rewrite !trim_blank_decide.
  destruct (blank query), (blank location); simpl;
    repeat split; try done; try (by left); try (by right);
    try (by intros [? ?]); try (by intros [?|?]).
Qed.

Lemma search_stopped_iff_blank_witness :
  searchForm_submit "  " "" <> None /\ searchForm_submit " rocq " "" = None.
Proof.
  split.
  - apply (proj1 (search_stopped_iff_blank "  " "" eq_refl eq_refl)).
    split; reflexivity.
  - apply (proj2 (search_stopped_iff_blank " rocq " "" eq_refl eq_refl)).
    left. reflexivity.
Defined.

Lemma skills_step_ascii (w : skills_widget) (e : skills_event) :
  typed_ascii e -> ascii_text (input_value w) = true ->
  ascii_text (input_value (skills_step w e)) = true.
Proof.
  destruct e as [v|k|i]; simpl; [done| |done].
  intros _ Hw. unfold skills_keydown.
  case_bool_decide; [|done]. by case_bool_decide.
Qed.

(** X20.  When the user types ASCII text, every tag of the skills list
    is ASCII text that is not empty and neither starts nor ends with white
    space, whatever is typed, confirmed or removed; and confirming an input
    that is blank changes nothing. *)
Theorem skill_tags_are_tidy (w : skills_widget) (es : list skills_event)
    (key : string) :
  ascii_text (input_value w) = true ->
  (Forall typed_ascii es -> Forall tidy (skills_tags w) ->
   Forall tidy (skills_tags (fold_left skills_step es w))) /\
  (blank (input_value w) = true -> (skills_keydown key w).2 = w).
Proof.
  intros Hw. split.
  - revert w Hw. induction es as [|e es IH]; intros w Hw Hes Ht; simpl; [done|].
    apply Forall_cons in Hes as [He Hes].
    apply IH; [by apply skills_step_ascii | done |].
    destruct e as [v|k|i]; simpl; [done| |by apply Forall_delete].
    unfold skills_keydown. case_bool_decide; [|done].
    case_bool_decide as Hne; [|done]. simpl.
    apply Forall_app. split; [done|]. apply Forall_singleton.
    by apply trim_tidy.
  - intros Hb. unfold skills_keydown. case_bool_decide; [|done].
    apply trim_blank in Hb. rewrite Hb.
    by rewrite bool_decide_eq_false_2 by (intros H'; by apply H').
Qed.

Lemma skill_tags_are_tidy_witness :
  Forall tidy
    (skills_tags
       (fold_left skills_step
          [Keydown "Enter"; Typed "   "; Keydown ","; Typed "sql, "; Keydown ",";
           RemoveSkill 0]
          (mkSkills "  Rocq " ["python"]))) /\
  (skills_keydown "Enter" (mkSkills "   " ["python"])).2
  = mkSkills "   " ["python"].
Proof.
  destruct (skill_tags_are_tidy (mkSkills "  Rocq " ["python"])
              [Keydown "Enter"; Typed "   "; Keydown ","; Typed "sql, ";
               Keydown ","; RemoveSkill 0] "Enter" eq_refl) as [Hall _].
  destruct (skill_tags_are_tidy (mkSkills "   " ["python"]) [] "Enter" eq_refl)
    as [_ Hblank].
  split.
  - apply Hall.
    + repeat constructor.
    + constructor; [|constructor].
      split; [reflexivity|]. split; [by exists "p"%char | by exists "n"%char].
  - apply Hblank. reflexivity.
Defined.
